(** * Lyrics enrichment and emotion scoring: a shallow embedding

    Embedding of [genius_lyrics_enrichment.py] (name normalisation, lyrics
    cleaning, the fetch layer and the enrichment loop of [main]), of
    [emotion_scorer_roberta.py] ([analyze_emotions], [load_data] and its
    [main], in module [Scorer]) and of [generate_dates] from
    [spotify-charts-csv-downloader.py] (module [Charts]).  The other
    functions of the downloader drive a browser and poll the download
    folder against the clock, and are not embedded.

    Modelling conventions.
    - A Python [str] is a [string] whose characters are code points
      0..255 (Latin-1).  On that range [str.isspace] holds for 9..13,
      28..32, 133 and 160, and the regex class [\d] holds for '0'..'9'.
    - A spreadsheet cell or function argument is a [value]; only [VStr]
      passes [isinstance(x, str)].
    - Effects (provider searches, sleeps, exceptions) are threaded through
      a state-and-error monad over the trace of observable events.
    - Floating point delays and scores are carried as rationals.
    - Calls to [logging] leave no mark on results or on the trace and are
      left out.
    - [main] and [Scorer.main] take tables that are read and written
      without error; [main_io] and [ScorerIO.main] are the same code with
      the outcomes of reading and writing made explicit. *)

From Stdlib Require Import String Ascii List ZArith QArith Bool Arith Lia Lqa.
Import ListNotations.

Close Scope Q_scope.
Open Scope nat_scope.
Open Scope string_scope.

(* ===================================================================== *)
(** ** Python string primitives *)
(* ===================================================================== *)

Module PyStr.

(** [str.isspace] on one code point. *)
Definition isspace (c : ascii) : bool :=
  let n := N_of_ascii c in
  (((9 <=? n) && (n <=? 13)) || ((28 <=? n) && (n <=? 32))
   || (n =? 133) || (n =? 160))%N.

(** Truthiness of a string: [bool(s)]. *)
Definition truthy (s : string) : bool :=
  match s with EmptyString => false | String _ _ => true end.

(** [a or b] on strings. *)
Definition py_or (a b : string) : string := if truthy a then a else b.

(** [s[:n]] and [s[n:]] for a natural index. *)
Fixpoint take (n : nat) (s : string) : string :=
  match n, s with
  | S k, String c s' => String c (take k s')
  | _, _ => EmptyString
  end.

Fixpoint drop (n : nat) (s : string) : string :=
  match n, s with
  | S k, String _ s' => drop k s'
  | _, _ => s
  end.

(** [s[:k]] for a Python integer index: a negative index counts from the
    end, and the bounds are clamped to [0, len(s)]. *)
Definition slice_to (s : string) (k : Z) : string :=
  let n := Z.of_nat (String.length s) in
  let k' := if (k <? 0)%Z then Z.max 0 (k + n) else Z.min k n in
  take (Z.to_nat k') s.

(** Index of the first occurrence of [sub] in [s]. *)
Fixpoint index_of (sub s : string) : option nat :=
  if prefix sub s then Some 0
  else match s with
       | EmptyString => None
       | String _ s' => option_map S (index_of sub s')
       end.

(** [s.find(sub)]: the index of the first occurrence, or -1. *)
Definition find (s sub : string) : Z :=
  match index_of sub s with
  | Some i => Z.of_nat i
  | None => (-1)%Z
  end.

(** [sub in s]. *)
Definition contains (sub s : string) : bool :=
  match index_of sub s with Some _ => true | None => false end.

(** [s.split(sep)[0]] for a non-empty [sep]: the text before the first
    occurrence of [sep], or all of [s] when [sep] does not occur. *)
Definition split_head (s sep : string) : string :=
  match index_of sep s with
  | Some i => take i s
  | None => s
  end.

(** [s.split(sep, 1)[1]] for a non-empty [sep] that occurs in [s]: the
    text after the first occurrence of [sep].  [None] stands for the
    [IndexError] Python raises when [sep] does not occur. *)
Definition split_once_tail (s sep : string) : option string :=
  match index_of sep s with
  | Some i => Some (drop (i + String.length sep) s)
  | None => None
  end.

(** [s.lstrip()], [s.rstrip()], [s.strip()]. *)
Fixpoint lstrip (s : string) : string :=
  match s with
  | EmptyString => EmptyString
  | String c s' => if isspace c then lstrip s' else s
  end.

Fixpoint rstrip (s : string) : string :=
  match s with
  | EmptyString => EmptyString
  | String c s' =>
      match rstrip s' with
      | EmptyString => if isspace c then EmptyString else String c EmptyString
      | r => String c r
      end
  end.

Definition strip (s : string) : string := rstrip (lstrip s).

(** [s.split()]: the maximal runs of non-whitespace characters. *)
Fixpoint split_ws (s : string) : list string :=
  match s with
  | EmptyString => []
  | String c s' =>
      if isspace c then split_ws s'
      else match s' with
           | EmptyString => [String c EmptyString]
           | String c' _ =>
               if isspace c' then String c EmptyString :: split_ws s'
               else match split_ws s' with
                    | w :: ws => String c w :: ws
                    | [] => [String c EmptyString]
                    end
           end
  end.

(** [sep.join(l)]. *)
Definition join (sep : string) (l : list string) : string :=
  String.concat sep l.

(** [str.lower] on one Latin-1 code point. *)
Definition lower_char (c : ascii) : ascii :=
  let n := N_of_ascii c in
  if (((65 <=? n) && (n <=? 90))
      || ((192 <=? n) && (n <=? 222) && negb (n =? 215)))%N
  then ascii_of_N (n + 32) else c.

Fixpoint lower (s : string) : string :=
  match s with
  | EmptyString => EmptyString
  | String c s' => String (lower_char c) (lower s')
  end.

End PyStr.

(* ===================================================================== *)
(** ** The fragment of [re] used by the cleaner *)
(* ===================================================================== *)

Module Re.

(** A pattern is a sequence of atoms: a literal character, a greedy or
    lazy star over a character class, or the anchor [$]. *)
Inductive atom : Type :=
| Lit (c : ascii)
| Star (cls : ascii -> bool)
| LazyStar (cls : ascii -> bool)
| EndAnchor.

Definition regex := list atom.

(** [\d] and [.] (without DOTALL). *)
Definition digit (c : ascii) : bool :=
  let n := N_of_ascii c in ((48 <=? n) && (n <=? 57))%N.

Definition newline : ascii := ascii_of_N 10.

Definition dot (c : ascii) : bool := negb (Ascii.eqb c newline).

(** [$] without MULTILINE: the end of the text, or just before a newline
    that ends the text. *)
Definition at_end (s : string) : bool :=
  match s with
  | EmptyString => true
  | String c EmptyString => Ascii.eqb c newline
  | _ => false
  end.

Fixpoint lits (s : string) : regex :=
  match s with
  | EmptyString => []
  | String c s' => Lit c :: lits s'
  end.

(** Backtracking match of [p] at the start of [s]: the number of
    characters consumed by the first match in priority order. *)
Fixpoint match_at (p : regex) (s : string) {struct p} : option nat :=
  match p with
  | [] => Some 0
  | Lit c :: p' =>
      match s with
      | String d s' =>
          if Ascii.eqb c d then option_map S (match_at p' s') else None
      | EmptyString => None
      end
  | Star cls :: p' =>
      (fix greedy (s : string) : option nat :=
         match s with
         | String d s' =>
             if cls d then
               match greedy s' with
               | Some n => Some (S n)
               | None => match_at p' s
               end
             else match_at p' s
         | EmptyString => match_at p' s
         end) s
  | LazyStar cls :: p' =>
      (fix lazy (s : string) : option nat :=
         match match_at p' s with
         | Some n => Some n
         | None =>
             match s with
             | String d s' => if cls d then option_map S (lazy s') else None
             | EmptyString => None
             end
         end) s
  | EndAnchor :: p' => if at_end s then match_at p' s else None
  end.

(** [re.sub(p, repl, s)] for a pattern that never matches the empty
    string: scan left to right, replace each match and resume after it.
    [skip] counts the characters of the current match still to drop. *)
Fixpoint sub_from (p : regex) (repl : string) (skip : nat) (s : string)
  : string :=
  match s with
  | EmptyString => EmptyString
  | String c s' =>
      match skip with
      | S k => sub_from p repl k s'
      | O =>
          match match_at p s with
          | Some (S n) => repl ++ sub_from p repl n s'
          | _ => String c (sub_from p repl 0 s')
          end
      end
  end.

Definition sub (p : regex) (repl s : string) : string := sub_from p repl 0 s.

(** [r"\d*Embed$"] *)
Definition embed_footer : regex :=
  (Star digit :: lits "Embed" ++ [EndAnchor])%list.

(** [r"\[.*?\]"] *)
Definition section_header : regex :=
  (lits "[" ++ LazyStar dot :: lits "]")%list.

End Re.

(* ===================================================================== *)
(** ** Cleaning utilities ([genius_lyrics_enrichment.py]) *)
(* ===================================================================== *)

(** Values that reach the functions as arguments or spreadsheet cells. *)
Inductive value : Type :=
| VStr (s : string)
| VNone
| VNaN
| VInt (n : Z).

Definition title_separators : list string := ["("; "-"].

Definition clean_track_title (title : value) : string :=
  match title with
  | VStr title =>
      let cut_pos :=
        fold_left
          (fun cut_pos sep =>
             let idx := PyStr.find title sep in
             if negb (idx =? -1)%Z then Z.min cut_pos idx else cut_pos)
          title_separators
          (Z.of_nat (String.length title)) in
      PyStr.py_or (PyStr.strip (PyStr.slice_to title cut_pos))
                  (PyStr.strip title)
  | _ => ""
  end.

Definition artist_separators : list string := [","; "&"; "feat."; "ft."].

Definition clean_artist_name (artist : value) : string :=
  match artist with
  | VStr artist =>
      let artist :=
        fold_left
          (fun artist sep =>
             if PyStr.contains sep artist then PyStr.split_head artist sep
             else artist)
          artist_separators artist in
      PyStr.strip (PyStr.join " " (PyStr.split_ws artist))
  | _ => ""
  end.

Definition clean_lyrics (text track_name : string) : string :=
  if negb (PyStr.truthy text) then ""
  else
    let search_term := track_name ++ " Lyrics" in
    let text :=
      if PyStr.contains search_term text then
        match PyStr.split_once_tail text search_term with
        | Some rest => rest
        | None => text
        end
      else text in
    let text := Re.sub Re.embed_footer "" text in
    let text := Re.sub Re.section_header "" text in
    PyStr.strip text.


(* ===================================================================== *)
(** ** Effects: exceptions and the trace of observable events *)
(* ===================================================================== *)

(** Instances of Python's [Exception] class. *)
Inductive exception : Type :=
| FileNotFoundError
| ValueError
| EnvironmentError
| KeyError
| IndexError
| RuntimeError (code : nat).

(** What the outside world sees of a run, oldest event first. *)
Inductive event : Type :=
| ESearch (title : string) (artist : option string)
| ESleep (seconds : Q)
| EClassify (text : string).

Definition trace := list event.

Inductive result (A : Type) : Type :=
| Ok (a : A)
| Raised (e : exception).
Arguments Ok {A} a.
Arguments Raised {A} e.

(** A computation reads the trace so far and returns a value or a raised
    exception together with the extended trace. *)
Definition M (A : Type) : Type := trace -> result A * trace.

Definition ret {A} (a : A) : M A := fun tr => (Ok a, tr).

Definition bind {A B} (m : M A) (k : A -> M B) : M B :=
  fun tr =>
    match m tr with
    | (Ok a, tr') => k a tr'
    | (Raised e, tr') => (Raised e, tr')
    end.

Definition raise {A} (e : exception) : M A := fun tr => (Raised e, tr).

(** [try: body except Exception as e: handler(e)] *)
Definition try_except {A} (body : M A) (handler : exception -> M A) : M A :=
  fun tr =>
    match body tr with
    | (Ok a, tr') => (Ok a, tr')
    | (Raised e, tr') => handler e tr'
    end.

Definition emit (ev : event) : M unit := fun tr => (Ok tt, (tr ++ [ev])%list).

Declare Scope monad_scope.
Delimit Scope monad_scope with monad.
Notation "x <- m ;; k" := (bind m (fun x => k))
  (at level 61, m at next level, right associativity) : monad_scope.
Notation "m ;; k" := (bind m (fun _ => k))
  (at level 61, right associativity) : monad_scope.
Open Scope monad_scope.

(* ===================================================================== *)
(** ** Fetch layer *)
(* ===================================================================== *)

(** The match object returned by a provider search. *)
Record Song : Type := { lyrics : string }.

(** One answer of the provider to a search. *)
Inductive search_outcome : Type :=
| NoMatch
| Found (song : Song)
| SearchRaises (e : exception).

(** An authenticated provider session: its answer to a query may depend
    on everything that happened before (rate limits, outages). *)
Definition Genius : Type := trace -> string -> option string -> search_outcome.

(** [genius.search_song(title, artist)] *)
Definition search_song (genius : Genius) (title : string)
    (artist : option string) : M (option Song) :=
  fun tr =>
    let tr' := (tr ++ [ESearch title artist])%list in
    match genius tr title artist with
    | NoMatch => (Ok None, tr')
    | Found song => (Ok (Some song), tr')
    | SearchRaises e => (Raised e, tr')
    end.

(** [s or None] *)
Definition or_None (s : string) : option string :=
  if PyStr.truthy s then Some s else None.

Definition fetch_lyrics (genius : Genius) (title artist : value)
  : M (option string) :=
  try_except
    (let clean_title := clean_track_title title in
     let clean_artist := clean_artist_name artist in
     if negb (PyStr.truthy clean_title) then ret None
     else
       song <- search_song genius clean_title (or_None clean_artist) ;;
       match song with
       | Some song =>
           if PyStr.truthy (lyrics song) then
             let lyrics := clean_lyrics (lyrics song) clean_title in
             ret (or_None lyrics)
           else ret None
       | None => ret None
       end)
    (fun _ => ret None).

(* ===================================================================== *)
(** ** Main pipeline *)
(* ===================================================================== *)

Definition MIN_DELAY : Q := 1.
Definition MAX_DELAY : Q := 3 # 2.

(** A table: column labels and rows of cells aligned with the labels. *)
Record DataFrame : Type := {
  columns : list string;
  rows : list (list value)
}.

Definition has_column (df : DataFrame) (name : string) : bool :=
  existsb (String.eqb name) (columns df).

Fixpoint position (name : string) (cols : list string) : option nat :=
  match cols with
  | [] => None
  | c :: cols' =>
      if String.eqb c name then Some 0 else option_map S (position name cols')
  end.

(** [row[col]] on a row of a table with labels [cols]. *)
Definition row_get (cols : list string) (row : list value) (col : string)
  : value :=
  match position col cols with
  | Some j => nth j row VNaN
  | None => VNaN
  end.

(** The cell of [df] at row [i] and column [col]. *)
Definition cell (df : DataFrame) (i : nat) (col : string) : option value :=
  match position col (columns df), nth_error (rows df) i with
  | Some j, Some row => nth_error row j
  | _, _ => None
  end.

(** [df[name] = vals]: replace the column when the label exists, append
    it otherwise; a length mismatch is a [ValueError]. *)
Definition set_column (df : DataFrame) (name : string) (vals : list value)
  : M DataFrame :=
  if negb (length vals =? length (rows df))%nat then raise ValueError
  else if has_column df name then
    ret {| columns := columns df;
           rows := map (fun '(row, v) =>
                          map (fun '(c, x) => if String.eqb c name then v else x)
                              (combine (columns df) row))
                       (combine (rows df) vals) |}
  else
    ret {| columns := (columns df ++ [name])%list;
           rows := map (fun '(row, v) => (row ++ [v])%list)
                       (combine (rows df) vals) |}.

(** The process environment: the input spreadsheet, if the file exists,
    and the variable [GENIUS_ACCESS_TOKEN], if set. *)
Record environment : Type := {
  input_file : option DataFrame;
  GENIUS_ACCESS_TOKEN : option string
}.

Definition lyrics_value (l : option string) : value :=
  match l with Some text => VStr text | None => VNone end.

Section Pipeline.

(** [lyricsgenius.Genius(token)] and [random.random()]. *)
Variable connect : string -> Genius.
Variable random : trace -> Q.

Definition authenticate_genius (env : environment) : M Genius :=
  match GENIUS_ACCESS_TOKEN env with
  | Some token =>
      if negb (PyStr.truthy token) then raise EnvironmentError
      else ret (connect token)
  | None => raise EnvironmentError
  end.

(** [random.uniform(a, b)] is [a + (b - a) * random()]. *)
Definition random_uniform (a b : Q) : M Q :=
  fun tr => (Ok (a + (b - a) * random tr)%Q, tr).

Definition sleep (seconds : Q) : M unit := emit (ESleep seconds).

(** The body of [for index, row in df.iterrows()], over the rows still
    to visit, with the list accumulated so far. *)
Fixpoint enrich_rows (genius : Genius) (cols : list string)
    (track_col artist_col : string) (todo : list (list value))
    (lyrics_list : list (option string)) : M (list (option string)) :=
  match todo with
  | [] => ret lyrics_list
  | row :: todo' =>
      let title := row_get cols row track_col in
      let artist := row_get cols row artist_col in
      lyrics <- fetch_lyrics genius title artist ;;
      let lyrics_list := (lyrics_list ++ [lyrics])%list in
      delay <- random_uniform MIN_DELAY MAX_DELAY ;;
      sleep delay ;;
      enrich_rows genius cols track_col artist_col todo' lyrics_list
  end.

(** [main()]; the value returned is the table written to the output. *)
Definition main (env : environment) : M DataFrame :=
  match input_file env with
  | None => raise FileNotFoundError
  | Some df =>
      if (length (columns df) <? 2)%nat then raise ValueError
      else
        let track_col :=
          if has_column df "track_name" then "track_name"
          else nth 0 (columns df) "" in
        let artist_col :=
          if has_column df "artist_names" then "artist_names"
          else nth 1 (columns df) "" in
        genius <- authenticate_genius env ;;
        lyrics_list <-
          enrich_rows genius (columns df) track_col artist_col (rows df) [] ;;
        set_column df "lyrics" (map lyrics_value lyrics_list)
  end.

End Pipeline.

(* ===================================================================== *)
(** ** Emotion scorer ([emotion_scorer_roberta.py]) *)
(* ===================================================================== *)

Definition EMOTION_LABELS : list string :=
  ["anger"; "disgust"; "fear"; "joy"; "neutral"; "sadness"; "surprise"].

(** A dict from column name to a score or [None], in insertion order. *)
Definition scores_dict := list (string * option Q).

(** [d[k] = v] *)
Fixpoint dict_set (d : scores_dict) (k : string) (v : option Q)
  : scores_dict :=
  match d with
  | [] => [(k, v)]
  | (k', v') :: d' =>
      if String.eqb k' k then (k', v) :: d' else (k', v') :: dict_set d' k v
  end.

Fixpoint dict_get (d : scores_dict) (k : string) : option (option Q) :=
  match d with
  | [] => None
  | (k', v') :: d' => if String.eqb k' k then Some v' else dict_get d' k
  end.

(** One element of the classifier's answer: a dict with a ["label"] and
    a ["score"]; a dict with a ["label"] and no ["score"]; or anything
    whose label cannot be read (no ["label"], a label that is not a
    string, not a dict). *)
Inductive entry : Type :=
| Entry (label : string) (score : Q)
| Unscored (label : string)
| Malformed.

Inductive classifier_outcome : Type :=
| Results (rs : list entry)
| ClassifierRaises (e : exception).

Definition Classifier : Type := trace -> string -> classifier_outcome.

Definition call_classifier (classifier : Classifier) (text : string)
  : M (list entry) :=
  fun tr =>
    let tr' := (tr ++ [EClassify text])%list in
    match classifier tr text with
    | Results rs => (Ok rs, tr')
    | ClassifierRaises e => (Raised e, tr')
    end.

Definition score_key (e : string) : string := "score_" ++ e.

(** [{f"score_{e}": v for e in EMOTION_LABELS}] *)
Definition fresh_scores (v : option Q) : scores_dict :=
  map (fun e => (score_key e, v)) EMOTION_LABELS.

Definition is_label (l : string) : bool :=
  existsb (String.eqb l) EMOTION_LABELS.

(** The [for r in results] loop. *)
Fixpoint record_scores (results : list entry) (scores : scores_dict)
  : M scores_dict :=
  match results with
  | [] => ret scores
  | Malformed :: _ => raise KeyError
  | Entry l sc :: results' =>
      let label := PyStr.lower l in
      if is_label label then
        record_scores results' (dict_set scores (score_key label) (Some sc))
      else record_scores results' scores
  | Unscored l :: results' =>
      let label := PyStr.lower l in
      if is_label label then raise KeyError
      else record_scores results' scores
  end.

Definition analyze_emotions (classifier : Classifier) (text : value)
  : M scores_dict :=
  match text with
  | VStr text =>
      if negb (PyStr.truthy (PyStr.strip text)) then ret (fresh_scores None)
      else
        try_except
          (results <- call_classifier classifier text ;;
           record_scores results (fresh_scores (Some 0%Q)))
          (fun _ => ret (fresh_scores None))
  | _ => ret (fresh_scores None)
  end.

(* ===================================================================== *)
(** ** The scorer's pipeline ([emotion_scorer_roberta.py]) *)
(* ===================================================================== *)

Module Scorer.

Definition INPUT_FILE : string := "lyrics_dataset.csv".

(** The files on disk, by path: the table a file parses to, if the file
    exists. *)
Definition files : Type := string -> option DataFrame.

Definition load_data (disk : files) (input_file : string) : M DataFrame :=
  match disk input_file with
  | None => raise FileNotFoundError
  | Some df => ret df
  end.

(** A cell of the scored table: a cell of the input or a score. *)
Inductive scored_cell : Type :=
| Input (v : value)
| Score (s : option Q).

Record ScoredFrame : Type := {
  scored_columns : list string;
  scored_rows : list (list scored_cell)
}.

(** [series.apply(f)]: [f] on each element in order. *)
Fixpoint apply (f : value -> M scores_dict) (series : list value)
  : M (list scores_dict) :=
  match series with
  | [] => ret []
  | x :: series' =>
      r <- f x ;;
      rs <- apply f series' ;;
      ret (r :: rs)
  end.

(** [pd.DataFrame(records)] for a list of dicts: the columns are the keys
    in order of first appearance, and a key a record lacks gives a null
    cell. *)
Definition add_keys (seen : list string) (r : scores_dict) : list string :=
  fold_left
    (fun acc k => if existsb (String.eqb k) acc then acc else (acc ++ [k])%list)
    (map fst r) seen.

Definition record_columns (records : list scores_dict) : list string :=
  fold_left add_keys records [].

Definition record_row (cols : list string) (r : scores_dict)
  : list (option Q) :=
  map (fun c => match dict_get r c with Some v => v | None => None end) cols.

Definition frame_of_records (records : list scores_dict)
  : list string * list (list (option Q)) :=
  let cols := record_columns records in
  (cols, map (record_row cols) records).

(** [pd.concat([df, emotion_df], axis=1)] for two tables with the same
    number of rows. *)
Definition concat_columns (df : DataFrame)
    (emotion_df : list string * list (list (option Q))) : ScoredFrame :=
  {| scored_columns := (columns df ++ fst emotion_df)%list;
     scored_rows :=
       map (fun '(row, scores) => (map Input row ++ map Score scores)%list)
           (combine (rows df) (snd emotion_df)) |}.

(** [main()]: [pipeline] is the outcome of loading the model, and the
    value returned is the table written to the output. *)
Definition main (pipeline : result Classifier) (disk : files)
  : M ScoredFrame :=
  classifier <- (match pipeline with
                 | Ok classifier => ret classifier
                 | Raised e => raise e
                 end) ;;
  df <- load_data disk INPUT_FILE ;;
  if negb (has_column df "lyrics") then raise ValueError
  else
    emotion_data <-
      apply (analyze_emotions classifier)
            (map (fun row => row_get (columns df) row "lyrics") (rows df)) ;;
    let emotion_df := frame_of_records emotion_data in
    ret (concat_columns df emotion_df).

End Scorer.

(* ===================================================================== *)
(** ** Reading and writing the tables *)
(* ===================================================================== *)

(** [main] and [Scorer.main] above stand for runs in which the input is
    read and the output is written without error.  The two functions
    below are the same code with both outcomes made explicit:
    [read_error] is the exception [pd.read_excel] (or [pd.read_csv])
    raises on the file, if any, and [write_error] the exception
    [to_excel] (or [to_csv]) raises on the table to write, if any. *)

Section SpreadsheetIO.

Variable connect : string -> Genius.
Variable random : trace -> Q.

Definition main_io (env : environment) (read_error : option exception)
    (write_error : DataFrame -> option exception) : M DataFrame :=
  match input_file env with
  | None => raise FileNotFoundError
  | Some df =>
      match read_error with
      | Some e => raise e
      | None =>
          if (length (columns df) <? 2)%nat then raise ValueError
          else
            let track_col :=
              if has_column df "track_name" then "track_name"
              else nth 0 (columns df) "" in
            let artist_col :=
              if has_column df "artist_names" then "artist_names"
              else nth 1 (columns df) "" in
            genius <- authenticate_genius connect env ;;
            lyrics_list <-
              enrich_rows random genius (columns df) track_col artist_col
                          (rows df) [] ;;
            out <- set_column df "lyrics" (map lyrics_value lyrics_list) ;;
            match write_error out with
            | Some e => raise e
            | None => ret out
            end
      end
  end.

End SpreadsheetIO.

Module ScorerIO.

Definition load_data (disk : Scorer.files) (read_error : option exception)
    (input_file : string) : M DataFrame :=
  match disk input_file with
  | None => raise FileNotFoundError
  | Some df =>
      match read_error with
      | Some e => raise e
      | None => ret df
      end
  end.

Definition main (pipeline : result Classifier) (disk : Scorer.files)
    (read_error : option exception)
    (write_error : Scorer.ScoredFrame -> option exception)
  : M Scorer.ScoredFrame :=
  classifier <- (match pipeline with
                 | Ok classifier => ret classifier
                 | Raised e => raise e
                 end) ;;
  df <- load_data disk read_error Scorer.INPUT_FILE ;;
  if negb (has_column df "lyrics") then raise ValueError
  else
    emotion_data <-
      Scorer.apply (analyze_emotions classifier)
            (map (fun row => row_get (columns df) row "lyrics") (rows df)) ;;
    let emotion_df := Scorer.frame_of_records emotion_data in
    let final_df := Scorer.concat_columns df emotion_df in
    match write_error final_df with
    | Some e => raise e
    | None => ret final_df
    end.

End ScorerIO.

(* ===================================================================== *)
(** ** Chart dates ([spotify-charts-csv-downloader.py]) *)
(* ===================================================================== *)

Module Charts.

(** A [datetime] at midnight is its day number, from 1 for 0001-01-01 to
    [MAX_ORDINAL] for 9999-12-31, the last day [datetime] can hold. *)
Definition MAX_ORDINAL : Z := 3652059.

Inductive date_error : Type :=
| DateValueError
| DateOverflowError.

(** How a generator ends: exhausted, or with an exception. *)
Inductive ending : Type :=
| Exhausted
| Failed (e : date_error).

Section Calendar.

(** [datetime.strptime(s, "%Y-%m-%d")], [None] for the [ValueError] on a
    text that is no date, and [d.strftime("%Y-%m-%d")]. *)
Variable strptime : string -> option Z.
Variable strftime : Z -> string.

(** The [while current <= end] loop: what it yields and how it ends.
    [fuel] bounds the number of tests of the condition; [None] when it
    runs out. *)
Fixpoint dates_loop (fuel : nat) (current end_ : Z)
  : option (list string * ending) :=
  match fuel with
  | O => None
  | S fuel' =>
      if (current <=? end_)%Z then
        let yielded := strftime current in
        if (current + 1 >? MAX_ORDINAL)%Z
        then Some ([yielded], Failed DateOverflowError)
        else
          match dates_loop fuel' (current + 1)%Z end_ with
          | Some (rest, e) => Some (yielded :: rest, e)
          | None => None
          end
      else Some ([], Exhausted)
  end.

Definition generate_dates (fuel : nat) (start_date end_date : string)
  : option (list string * ending) :=
  match strptime start_date with
  | None => Some ([], Failed DateValueError)
  | Some start =>
      match strptime end_date with
      | None => Some ([], Failed DateValueError)
      | Some end_ => dates_loop fuel start end_
      end
  end.

End Calendar.

End Charts.

(* ===================================================================== *)
(** ** Reference definitions used in the statements *)
(* ===================================================================== *)

(** Index of the first character of [s] that satisfies [P]. *)
Fixpoint earliest (P : ascii -> bool) (s : string) : option nat :=
  match s with
  | EmptyString => None
  | String c s' => if P c then Some 0 else option_map S (earliest P s')
  end.

Definition descriptor_opening (c : ascii) : bool :=
  Ascii.eqb c "(" || Ascii.eqb c "-".

(** Title normalisation as the specification words it: truncate at the
    smallest index at which [(] or [-] occurs, trim, and fall back to the
    trimmed original when nothing is left. *)
Definition normalize_title (title : value) : string :=
  match title with
  | VStr t =>
      let truncated :=
        match earliest descriptor_opening t with
        | Some i => PyStr.take i t
        | None => t
        end in
      let trimmed := PyStr.strip truncated in
      if String.eqb trimmed "" then PyStr.strip t else trimmed
  | _ => ""
  end.

(** Artist normalisation as the specification words it: only the first
    separator, in priority order, that occurs in the credit is applied. *)
Definition first_separator_only (artist : string) : string :=
  match List.find (fun sep => PyStr.contains sep artist) artist_separators with
  | Some sep => PyStr.split_head artist sep
  | None => artist
  end.

Definition normalize_artist (artist : value) : string :=
  match artist with
  | VStr a => PyStr.strip (PyStr.join " " (PyStr.split_ws (first_separator_only a)))
  | _ => ""
  end.

(** What the loop of [clean_artist_name] leaves of the credit: every
    separator is applied in turn to what the previous ones left. *)
Definition primary_credit (artist : string) : string :=
  PyStr.split_head
    (PyStr.split_head
       (PyStr.split_head (PyStr.split_head artist ",") "&") "feat.") "ft.".

(** The three rewriting steps of [clean_lyrics], by name. *)
Definition remove_banner (text track_name : string) : string :=
  let search_term := track_name ++ " Lyrics" in
  match PyStr.index_of search_term text with
  | Some i => PyStr.drop (i + String.length search_term) text
  | None => text
  end.

Definition remove_embed_footer (text : string) : string :=
  Re.sub Re.embed_footer "" text.

Definition remove_section_headers (text : string) : string :=
  Re.sub Re.section_header "" text.

(** Events by kind, and their number in a trace. *)
Definition is_search (ev : event) : bool :=
  match ev with ESearch _ _ => true | _ => false end.

Definition is_sleep (ev : event) : bool :=
  match ev with ESleep _ => true | _ => false end.


Definition count (kind : event -> bool) (tr : trace) : nat :=
  length (filter kind tr).

(** A run of the enrichment loop from trace [tr] over the rows [todo]:
    for each row in order, one call of [fetch_lyrics] returning [r] and
    producing the events [evs], then exactly one sleep whose length lies
    in the configured interval.  The indices are the values the fetches
    returned and the events the whole run appended. *)
Inductive enrichment (genius : Genius) (cols : list string)
    (track_col artist_col : string)
  : trace -> list (list value) -> list (option string) -> trace -> Prop :=
| enrichment_done tr : enrichment genius cols track_col artist_col tr [] [] []
| enrichment_row tr row todo r evs d fetched produced :
    fetch_lyrics genius (row_get cols row track_col)
                 (row_get cols row artist_col) tr
      = (Ok r, (tr ++ evs)%list) ->
    (MIN_DELAY <= d <= MAX_DELAY)%Q ->
    enrichment genius cols track_col artist_col
               (tr ++ evs ++ [ESleep d])%list todo fetched produced ->
    enrichment genius cols track_col artist_col tr (row :: todo)
               (r :: fetched) (evs ++ ESleep d :: produced)%list.

(** Every row of the table has one cell per column. *)
Definition well_formed (df : DataFrame) : Prop :=
  Forall (fun row => length row = length (columns df)) (rows df).

(** The columns [main] reads the title and the artist credit from. *)
Definition track_column (df : DataFrame) : string :=
  if has_column df "track_name" then "track_name" else nth 0 (columns df) "".

Definition artist_column (df : DataFrame) : string :=
  if has_column df "artist_names" then "artist_names"
  else nth 1 (columns df) "".

(** A text made of whitespace only (the empty text included). *)
Fixpoint all_space (s : string) : bool :=
  match s with
  | EmptyString => true
  | String c s' => PyStr.isspace c && all_space s'
  end.

(** A lyrics cell with nothing to score: not a string, or blank. *)
Definition blank (text : value) : bool :=
  match text with
  | VStr t => all_space t
  | _ => true
  end.

Definition score_columns : list string :=
  ["score_anger"; "score_disgust"; "score_fear"; "score_joy";
   "score_neutral"; "score_sadness"; "score_surprise"].

(** The score of the last entry of [rs] whose lowercased label is [e]. *)
Fixpoint returned_score (e : string) (rs : list entry) : option Q :=
  match rs with
  | [] => None
  | r :: rs' =>
      match returned_score e rs' with
      | Some q => Some q
      | None =>
          match r with
          | Entry l q => if String.eqb (PyStr.lower l) e then Some q else None
          | Unscored _ => None
          | Malformed => None
          end
      end
  end.

Definition known_entry (r : entry) : bool :=
  match r with
  | Entry l _ => is_label (PyStr.lower l)
  | Unscored _ => false
  | Malformed => false
  end.

(** The loop gets past [r]: its label can be read and, when the label is
    one of the fixed set, so can its score. *)
Definition readable (r : entry) : bool :=
  match r with
  | Entry _ _ => true
  | Unscored l => negb (is_label (PyStr.lower l))
  | Malformed => false
  end.

(** Every character of [s] satisfies [P]. *)
Fixpoint all_chars (P : ascii -> bool) (s : string) : bool :=
  match s with
  | EmptyString => true
  | String c s' => P c && all_chars P s'
  end.

(** The last character of [s] is a digit. *)
Fixpoint ends_with_digit (s : string) : bool :=
  match s with
  | EmptyString => false
  | String c EmptyString => Re.digit c
  | String _ s' => ends_with_digit s'
  end.

(** Characters allowed inside a section header, and outside of one. *)
Definition header_char (c : ascii) : bool :=
  Re.dot c && negb (Ascii.eqb c "]").

Definition not_open_bracket (c : ascii) : bool := negb (Ascii.eqb c "[").

(** [clean_lyrics] with the section headers removed before the banner
    instead of after the footer. *)
Definition clean_lyrics_headers_first (text track_name : string) : string :=
  PyStr.strip
    (remove_embed_footer
       (remove_banner (remove_section_headers text) track_name)).

(** The smaller of two optional indices. *)
Definition omin (a b : option nat) : option nat :=
  match a, b with
  | Some i, Some j => Some (Nat.min i j)
  | Some i, None => Some i
  | None, b => b
  end.

(* ===================================================================== *)
(** ** Stub collaborators and sample inputs *)
(* ===================================================================== *)

(** A provider that answers every search with the same lyrics. *)
Definition always_found (text : string) : Genius :=
  fun _ _ _ => Found {| lyrics := text |}.

(** The stub provider of the end-to-end scenario. *)
Definition stub_provider : Genius :=
  fun _ title artist =>
    if String.eqb title "Hello" then
      Found {| lyrics := "Hello Lyrics[Intro]La la la123Embed" |}
    else NoMatch.

Definition example_table : DataFrame :=
  {| columns := ["track_name"; "artist_names"; "streams"];
     rows := [[VStr "Hello (Live)"; VStr "A, B"; VInt 10];
              [VStr ""; VStr "C"; VInt 7]] |}.

Definition example_env : environment :=
  {| input_file := Some example_table; GENIUS_ACCESS_TOKEN := Some "token" |}.

Definition no_token_env : environment :=
  {| input_file := Some example_table; GENIUS_ACCESS_TOKEN := None |}.

Definition midpoint : trace -> Q := fun _ => (1 # 2)%Q.

(** A classifier that fails on every text. *)
Definition failing_classifier : Classifier :=
  fun _ _ => ClassifierRaises (RuntimeError 1).

(** The rows of a table whose title cell gives a usable search title. *)
Definition searchable_rows (cols : list string) (track_col : string)
    (rows : list (list value)) : list (list value) :=
  filter (fun row => negb (blank (row_get cols row track_col))) rows.

(** The search [fetch_lyrics] issues for a row, and what the loop appends
    to the trace for a row: that search, unless the title cell is blank
    or not a string, then one sleep. *)
Definition row_search (cols : list string) (track_col artist_col : string)
    (row : list value) : event :=
  ESearch (clean_track_title (row_get cols row track_col))
          (or_None (clean_artist_name (row_get cols row artist_col))).

Definition row_events (cols : list string) (track_col artist_col : string)
    (row : list value) (delay : Q) : trace :=
  ((if blank (row_get cols row track_col) then []
    else [row_search cols track_col artist_col row])
   ++ [ESleep delay])%list.

(** The events of a run over [rows], row by row, given the delays. *)
Definition run_events (cols : list string) (track_col artist_col : string)
    (rows : list (list value)) (delays : list Q) : trace :=
  flat_map (fun '(row, d) => row_events cols track_col artist_col row d)
           (combine rows delays).

(** A table that already holds a lyrics column, and its environment. *)
Definition enriched_table : DataFrame :=
  {| columns := ["track_name"; "lyrics"; "artist_names"];
     rows := [[VStr "Hello (Live)"; VStr "old text"; VStr "A, B"];
              [VStr "Unknown"; VStr "kept so far"; VStr "C"]] |}.

Definition enriched_env : environment :=
  {| input_file := Some enriched_table; GENIUS_ACCESS_TOKEN := Some "token" |}.

(** A character that is not whitespace, and a word: a non-empty text of
    such characters. *)
Definition visible (c : ascii) : bool := negb (PyStr.isspace c).

Definition word (w : string) : Prop :=
  w <> "" /\ all_chars visible w = true.

(** Whitespace in [s] is limited to single spaces between words:
    [after_space] tells that the text before [s] was empty or ended in a
    space. *)
Fixpoint single_spaced_from (after_space : bool) (s : string) : bool :=
  match s with
  | EmptyString => negb after_space
  | String c s' =>
      if PyStr.isspace c
      then negb after_space && Ascii.eqb c " " && single_spaced_from true s'
      else single_spaced_from false s'
  end.

Definition single_spaced (s : string) : bool :=
  match s with
  | EmptyString => true
  | _ => single_spaced_from true s
  end.

(** [sub] occurs somewhere in [s]. *)
Definition occurs (sub s : string) : Prop := exists a b, s = a ++ sub ++ b.

(** The classifier calls a column of lyrics cells gives rise to: one for
    each cell that is a string with a visible character, in order. *)
Definition classified (series : list value) : trace :=
  flat_map (fun v => match v with
                     | VStr t => if all_space t then [] else [EClassify t]
                     | _ => []
                     end) series.

(** How a lyrics cell and its dict of scores relate, whatever the
    classifier did: seven keys, all null for a cell with nothing to
    score. *)
Definition scores_of (text : value) (d : scores_dict) : Prop :=
  map fst d = score_columns /\ (blank text = true -> d = fresh_scores None).

(** A classifier with a fixed answer, a lyrics table and a disk. *)
Definition constant_classifier (rs : list entry) : Classifier :=
  fun _ _ => Results rs.

Definition lyrics_table : DataFrame :=
  {| columns := ["track_name"; "lyrics"];
     rows := [[VStr "Hello"; VStr "La la la"];
              [VStr "Silence"; VNaN];
              [VStr "Blank"; VStr "  "]] |}.

Definition lyrics_disk : Scorer.files :=
  fun path => if String.eqb path "lyrics_dataset.csv" then Some lyrics_table
              else None.

(** [n] consecutive days from day [first]. *)
Fixpoint days (first : Z) (n : nat) : list Z :=
  match n with
  | O => []
  | S n' => first :: days (first + 1)%Z n'
  end.

(** A calendar that knows three texts, for the sample runs. *)
Definition sample_strptime (s : string) : option Z :=
  if String.eqb s "2025-01-01" then Some 739252%Z
  else if String.eqb s "2025-01-03" then Some 739254%Z
  else if String.eqb s "9999-12-31" then Some 3652059%Z
  else None.

Definition sample_strftime (d : Z) : string :=
  if (d =? 739252)%Z then "2025-01-01"
  else if (d =? 739253)%Z then "2025-01-02"
  else if (d =? 739254)%Z then "2025-01-03"
  else if (d =? 3652059)%Z then "9999-12-31"
  else "".

(** The section-header pattern matches at the start of [s], and matches
    nowhere in [s]. *)
Definition header_at (s : string) : bool :=
  match Re.match_at Re.section_header s with
  | Some (S _) => true
  | _ => false
  end.

Fixpoint header_free (s : string) : bool :=
  match s with
  | EmptyString => true
  | String c s' => negb (header_at (String c s')) && header_free s'
  end.

(** A closing bracket comes in [s] before any newline. *)
Definition closes (s : string) : bool :=
  match Re.match_at (Re.LazyStar Re.dot :: Re.lits "]") s with
  | Some _ => true
  | None => false
  end.

(** [s.endswith(sub)] *)
Fixpoint ends_with (sub s : string) : bool :=
  String.eqb sub s
  || match s with
     | EmptyString => false
     | String _ s' => ends_with sub s'
     end.

(* ===================================================================== *)
(** ** Facts about the string primitives *)
(* ===================================================================== *)

Module PyStrFacts.
Import PyStr.

Lemma take_drop n s : take n s ++ drop n s = s.
Proof.
  revert n; induction s as [|c s IH]; intros [|n]; simpl; auto.
  now rewrite IH.
Qed.

Lemma take_all s : take (String.length s) s = s.
Proof. induction s as [|c s IH]; simpl; congruence. Qed.

Lemma length_take n s : String.length (take n s) = Nat.min n (String.length s).
Proof.
  revert n; induction s as [|c s IH]; intros [|n]; simpl; auto.
Qed.

Lemma length_app a b :
  String.length (a ++ b) = String.length a + String.length b.
Proof. induction a as [|c a IH]; simpl; auto. Qed.

Lemma app_assoc a b c : (a ++ b) ++ c = a ++ (b ++ c).
Proof. induction a as [|x a IH]; simpl; congruence. Qed.

Lemma app_empty_r a : a ++ "" = a.
Proof. induction a as [|x a IH]; simpl; congruence. Qed.

Lemma take_app a b : take (String.length a) (a ++ b) = a.
Proof. induction a as [|c a IH]; simpl; [now destruct b | congruence]. Qed.

Lemma drop_app a b : drop (String.length a) (a ++ b) = b.
Proof. induction a as [|c a IH]; simpl; auto. Qed.

Lemma truthy_false s : truthy s = false <-> s = "".
Proof. destruct s; simpl; split; congruence. Qed.

Lemma truthy_true s : truthy s = true <-> s <> "".
Proof. destruct s; simpl; split; congruence. Qed.

(** *** Prefixes and first occurrences *)

Lemma prefix_app a r : prefix a (a ++ r) = true.
Proof.
  induction a as [|c a IH]; simpl; [now destruct r|].
  destruct (ascii_dec c c); congruence.
Qed.

Lemma prefix_split a s : prefix a s = true -> s = a ++ drop (String.length a) s.
Proof.
  revert s; induction a as [|c a IH]; intros s H; simpl; [now destruct s|].
  destruct s as [|d s]; simpl in H; [discriminate|].
  destruct (ascii_dec c d); [subst|discriminate].
  simpl. f_equal. auto.
Qed.

Lemma prefix_iff a s : prefix a s = true <-> exists r, s = a ++ r.
Proof.
  split.
  - intros H; eexists; now apply prefix_split.
  - intros [r ->]; apply prefix_app.
Qed.

Lemma prefix_length a s : prefix a s = true -> String.length a <= String.length s.
Proof.
  intros H; apply prefix_split in H. rewrite H, length_app. lia.
Qed.

Lemma index_of_nil sub i : index_of sub "" = Some i -> sub = "" /\ i = 0.
Proof. destruct sub; simpl; [intros [= <-]; auto | discriminate]. Qed.

Lemma index_of_nil_None sub : index_of sub "" = None -> sub <> "".
Proof. destruct sub; simpl; [discriminate | intros _; discriminate]. Qed.

Lemma index_of_cons sub c s :
  index_of sub (String c s) =
  if prefix sub (String c s) then Some 0 else option_map S (index_of sub s).
Proof. reflexivity. Qed.

Lemma index_of_drop sub s i :
  index_of sub s = Some i -> prefix sub (drop i s) = true.
Proof.
  revert i; induction s as [|c s IH]; intros i.
  - intros H; apply index_of_nil in H as [-> ->]. reflexivity.
  - rewrite index_of_cons. destruct (prefix sub (String c s)) eqn:E.
    + intros [= <-]; exact E.
    + destruct (index_of sub s) as [j|]; simpl; [|discriminate].
      intros [= <-]; simpl; auto.
Qed.

Lemma index_of_lt sub s i :
  index_of sub s = Some i -> i + String.length sub <= String.length s.
Proof.
  revert i; induction s as [|c s IH]; intros i.
  - intros H; apply index_of_nil in H as [-> ->]. simpl; lia.
  - rewrite index_of_cons. destruct (prefix sub (String c s)) eqn:E.
    + intros [= <-]. apply prefix_length in E. simpl in *; lia.
    + destruct (index_of sub s) as [j|]; simpl; [|discriminate].
      intros [= <-]. specialize (IH j eq_refl). lia.
Qed.

Lemma index_of_first sub s i j :
  index_of sub s = Some i -> j < i -> prefix sub (drop j s) = false.
Proof.
  revert i j; induction s as [|c s IH]; intros i j.
  - intros H; apply index_of_nil in H as [-> ->]. lia.
  - rewrite index_of_cons. destruct (prefix sub (String c s)) eqn:E.
    + intros [= <-]; lia.
    + destruct (index_of sub s) as [k|] eqn:K; simpl; [|discriminate].
      intros [= <-] Hj. destruct j as [|j]; simpl; [exact E|].
      apply (IH k); auto; lia.
Qed.

Lemma index_of_None sub s j :
  index_of sub s = None -> prefix sub (drop j s) = false.
Proof.
  revert j; induction s as [|c s IH]; intros j.
  - intros H; apply index_of_nil_None in H.
    destruct sub; [congruence|]. now destruct j.
  - rewrite index_of_cons. destruct (prefix sub (String c s)) eqn:E; [discriminate|].
    destruct (index_of sub s) as [k|] eqn:K; simpl; [discriminate|].
    intros _. destruct j as [|j]; simpl; auto.
Qed.

(** An occurrence at position [j] bounds the first occurrence. *)
Lemma index_of_le sub s j :
  prefix sub (drop j s) = true -> j <= String.length s ->
  exists i, index_of sub s = Some i /\ i <= j.
Proof.
  revert j; induction s as [|c s IH]; intros j H Hj.
  - destruct j; simpl in Hj; [|lia]. simpl in H.
    destruct sub; [|discriminate]. exists 0; auto.
  - rewrite index_of_cons. destruct (prefix sub (String c s)) eqn:E.
    + exists 0; split; auto; lia.
    + destruct j as [|j]; cbn [drop] in H; [congruence|].
      destruct (IH j H) as (i & Hi & Hle); [simpl in Hj; lia|].
      rewrite Hi; simpl. exists (S i); split; auto; lia.
Qed.

Lemma drop_app_le j p r :
  j <= String.length p -> drop j (p ++ r) = drop j p ++ r.
Proof.
  revert j; induction p as [|c p IH]; intros [|j]; simpl; auto; try lia.
  intros H; apply IH; lia.
Qed.

(** A first occurrence inside a prefix yields one in the whole text, at
    the same index or earlier. *)
Lemma index_of_app sub p r j :
  index_of sub p = Some j ->
  exists i, index_of sub (p ++ r) = Some i /\ i <= j.
Proof.
  intros H.
  pose proof (index_of_lt _ _ _ H) as Hlt.
  pose proof (index_of_drop _ _ _ H) as Hp.
  apply index_of_le.
  - rewrite drop_app_le by lia.
    apply prefix_iff in Hp as [q ->]. rewrite app_assoc. apply prefix_app.
  - rewrite length_app; lia.
Qed.

(** Cutting at the first occurrence of a non-empty separator leaves a
    text in which the separator no longer occurs. *)
Lemma index_of_take sub s i :
  sub <> "" -> index_of sub s = Some i -> index_of sub (take i s) = None.
Proof.
  intros Hne H.
  destruct (index_of sub (take i s)) as [j|] eqn:E; auto.
  exfalso.
  pose proof (index_of_lt _ _ _ E) as Hj.
  rewrite length_take in Hj.
  destruct (index_of_app _ _ (drop i s) _ E) as (k & Hk & Hle).
  rewrite take_drop, H in Hk. injection Hk as <-.
  destruct sub; [congruence|]. simpl in Hj. lia.
Qed.

Lemma contains_false sub s : contains sub s = false <-> index_of sub s = None.
Proof. unfold contains; destruct (index_of sub s); split; congruence. Qed.

Lemma split_head_prefix s sep : exists rest, s = split_head s sep ++ rest.
Proof.
  unfold split_head. destruct (index_of sep s) as [i|].
  - exists (drop i s). now rewrite take_drop.
  - exists "". now rewrite app_empty_r.
Qed.

Lemma split_head_clean s sep :
  sep <> "" -> contains sep (split_head s sep) = false.
Proof.
  intros Hne. unfold split_head. destruct (index_of sep s) as [i|] eqn:E.
  - apply contains_false. now apply index_of_take.
  - now apply contains_false.
Qed.

Lemma contains_prefix_false sub p r :
  contains sub (p ++ r) = false -> contains sub p = false.
Proof.
  rewrite !contains_false. intros H.
  destruct (index_of sub p) as [j|] eqn:E; auto.
  destruct (index_of_app _ _ r _ E) as (i & Hi & _). congruence.
Qed.

Lemma split_head_absent s sep : contains sep s = false -> split_head s sep = s.
Proof.
  rewrite contains_false. unfold split_head. now intros ->.
Qed.

Lemma split_head_guard s sep :
  (if contains sep s then split_head s sep else s) = split_head s sep.
Proof.
  destruct (contains sep s) eqn:E; auto. now rewrite split_head_absent.
Qed.

End PyStrFacts.

(* ===================================================================== *)
(** ** NameNormalizer *)
(* ===================================================================== *)

Section Earliest.
Import PyStr PyStrFacts.

Lemma index_of_char c s :
  index_of (String c "") s = earliest (Ascii.eqb c) s.
Proof.
  induction s as [|d s IH]; [reflexivity|].
  rewrite index_of_cons. simpl.
  destruct (ascii_dec c d) as [->|Hne].
  - rewrite Ascii.eqb_refl. now destruct s.
  - apply Ascii.eqb_neq in Hne. rewrite Hne, IH. reflexivity.
Qed.

Lemma earliest_or P Q s :
  earliest (fun c => P c || Q c) s = omin (earliest P s) (earliest Q s).
Proof.
  induction s as [|d s IH]; [reflexivity|]. simpl.
  destruct (P d), (Q d); simpl; auto.
  - now destruct (earliest Q s).
  - now destruct (earliest P s).
  - rewrite IH. now destruct (earliest P s), (earliest Q s).
Qed.

Lemma earliest_lt P s i : earliest P s = Some i -> i < String.length s.
Proof.
  revert i; induction s as [|d s IH]; intros i; simpl; [discriminate|].
  destruct (P d); [intros [= <-]; lia|].
  destruct (earliest P s) as [j|]; simpl; [|discriminate].
  intros [= <-]. specialize (IH j eq_refl). lia.
Qed.

(** [earliest] returns the least index of a character satisfying [P]. *)
Lemma earliest_least P s i :
  earliest P s = Some i ->
  (exists c, String.get i s = Some c /\ P c = true) /\
  (forall j c, j < i -> String.get j s = Some c -> P c = false).
Proof.
  revert i; induction s as [|d s IH]; intros i; simpl; [discriminate|].
  destruct (P d) eqn:E.
  - intros [= <-]. split; [exists d; auto | intros; lia].
  - destruct (earliest P s) as [k|]; simpl; [|discriminate].
    intros [= <-]. destruct (IH k eq_refl) as [[c [Hc Pc]] Hmin].
    split; [exists c; auto|].
    intros [|j] c' Hj; simpl; [intros [= <-]; auto|].
    apply Hmin; lia.
Qed.

Lemma earliest_none P s :
  earliest P s = None -> forall j c, String.get j s = Some c -> P c = false.
Proof.
  induction s as [|d s IH]; simpl; [discriminate|].
  destruct (P d) eqn:E; [discriminate|].
  destruct (earliest P s); simpl; [discriminate|].
  intros _ [|j] c; [intros [= <-]; auto|]. now apply IH.
Qed.

Lemma slice_to_nat t i :
  i <= String.length t -> slice_to t (Z.of_nat i) = take i t.
Proof.
  intros H. unfold slice_to.
  destruct (Z.ltb_spec (Z.of_nat i) 0); [lia|].
  rewrite Z.min_l by lia. now rewrite Nat2Z.id.
Qed.

Lemma py_or_eqb a b : py_or a b = if String.eqb a "" then b else a.
Proof. now destruct a. Qed.

Lemma earliest_ext P Q s :
  (forall c, P c = Q c) -> earliest P s = earliest Q s.
Proof.
  intros H; induction s as [|d s IH]; simpl; [reflexivity|].
  now rewrite H, IH.
Qed.

Lemma earliest_descriptor t :
  earliest descriptor_opening t = omin (index_of "(" t) (index_of "-" t).
Proof.
  rewrite !index_of_char, <- earliest_or.
  apply earliest_ext. intros c. unfold descriptor_opening.
  now rewrite (Ascii.eqb_sym c "("), (Ascii.eqb_sym c "-").
Qed.

End Earliest.

Lemma clean_track_title_refines title :
  clean_track_title title = normalize_title title.
Proof.
  destruct title as [t| | |n]; try reflexivity.
  unfold clean_track_title, normalize_title, title_separators, PyStr.find.
  cbn [fold_left].
  rewrite earliest_descriptor, py_or_eqb.
  destruct (PyStr.index_of "(" t) as [i|] eqn:Ei;
    destruct (PyStr.index_of "-" t) as [j|] eqn:Ej; cbn [omin].
  all: try (apply PyStrFacts.index_of_lt in Ei; simpl in Ei);
    try (apply PyStrFacts.index_of_lt in Ej; simpl in Ej).
  all: repeat match goal with
         | |- context [(Z.of_nat ?k =? -1)%Z] =>
             replace (Z.of_nat k =? -1)%Z with false
               by (symmetry; apply Z.eqb_neq; lia)
         end; cbn [negb Z.eqb Pos.eqb].
  - replace (Z.min (Z.min (Z.of_nat (String.length t)) (Z.of_nat i)) (Z.of_nat j))
      with (Z.of_nat (Nat.min i j)) by lia.
    now rewrite slice_to_nat by lia.
  - replace (Z.min (Z.of_nat (String.length t)) (Z.of_nat i))
      with (Z.of_nat i) by lia.
    now rewrite slice_to_nat by lia.
  - replace (Z.min (Z.of_nat (String.length t)) (Z.of_nat j))
      with (Z.of_nat j) by lia.
    now rewrite slice_to_nat by lia.
  - rewrite slice_to_nat by lia. now rewrite PyStrFacts.take_all.
Qed.

(** C5. For every input, [clean_track_title] returns the empty string on
    a value that is not a string, and otherwise truncates the title at the
    smallest index at which [(] or [-] occurs (if either occurs), trims,
    and falls back to the trimmed original title when the trimmed prefix
    is empty; the three examples of the specification evaluate as
    stated. *)
Theorem clean_track_title_spec :
  (forall title, clean_track_title title = normalize_title title)
  /\ clean_track_title VNone = ""
  /\ clean_track_title VNaN = ""
  /\ (forall n, clean_track_title (VInt n) = "")
  /\ clean_track_title (VStr "Song (Remastered 2011)") = "Song"
  /\ clean_track_title (VStr "Song - Live") = "Song"
  /\ clean_track_title (VStr "   ") = "".
Proof.
  split; [exact clean_track_title_refines|].
  repeat split; reflexivity.
Qed.

(** C1 (as stated, refuted). On the credit ["A & B, C"] the comma is the
    first separator found, and applying it alone would keep ["A & B"];
    the code goes on to apply [&] to that prefix and returns ["A"]. *)
Lemma clean_artist_name_applies_later_separators :
  clean_artist_name (VStr "A & B, C") = "A"
  /\ normalize_artist (VStr "A & B, C") = "A & B"
  /\ String.eqb (clean_artist_name (VStr "A & B, C"))
                (normalize_artist (VStr "A & B, C")) = false.
Proof. repeat split; reflexivity. Qed.

Lemma clean_artist_name_unfold artist :
  clean_artist_name (VStr artist) =
  PyStr.strip (PyStr.join " " (PyStr.split_ws (primary_credit artist))).
Proof.
  unfold clean_artist_name, artist_separators, primary_credit.
  cbn [fold_left]. now rewrite !PyStrFacts.split_head_guard.
Qed.

(** C1 (amended). For every string, the separators [,], [&], [feat.],
    [ft.] are checked in that order against what the previous ones left,
    and every one that occurs is applied, taking the text before its first
    occurrence; what remains is a prefix of the input in which none of the
    four separators occurs, it is the whole input when none occurs in it,
    and the result is that prefix whitespace-collapsed and trimmed.  A
    value that is not a string gives the empty string. *)
Theorem clean_artist_name_spec :
  (forall artist,
      clean_artist_name (VStr artist) =
      PyStr.strip (PyStr.join " " (PyStr.split_ws (primary_credit artist)))
      /\ (exists rest, artist = primary_credit artist ++ rest)
      /\ (forall sep, In sep artist_separators ->
                      PyStr.contains sep (primary_credit artist) = false)
      /\ ((forall sep, In sep artist_separators ->
                       PyStr.contains sep artist = false) ->
          primary_credit artist = artist))
  /\ clean_artist_name VNone = ""
  /\ clean_artist_name VNaN = ""
  /\ (forall n, clean_artist_name (VInt n) = "")
  /\ clean_artist_name (VStr "Artist A, Artist B") = "Artist A"
  /\ clean_artist_name (VStr "Artist A feat. Artist B") = "Artist A"
  /\ clean_artist_name (VStr "") = "".
Proof.
  split; [|repeat split; reflexivity].
  intros artist. split; [apply clean_artist_name_unfold|].
  unfold primary_credit.
  set (p1 := PyStr.split_head artist ",").
  set (p2 := PyStr.split_head p1 "&").
  set (p3 := PyStr.split_head p2 "feat.").
  set (p4 := PyStr.split_head p3 "ft.").
  destruct (PyStrFacts.split_head_prefix artist ",") as [r1 H1].
  destruct (PyStrFacts.split_head_prefix p1 "&") as [r2 H2].
  destruct (PyStrFacts.split_head_prefix p2 "feat.") as [r3 H3].
  destruct (PyStrFacts.split_head_prefix p3 "ft.") as [r4 H4].
  fold p1 in H1. fold p2 in H2. fold p3 in H3. fold p4 in H4.
  assert (C1 : PyStr.contains "," p1 = false)
    by (apply PyStrFacts.split_head_clean; discriminate).
  assert (C2 : PyStr.contains "&" p2 = false)
    by (apply PyStrFacts.split_head_clean; discriminate).
  assert (C3 : PyStr.contains "feat." p3 = false)
    by (apply PyStrFacts.split_head_clean; discriminate).
  assert (C4 : PyStr.contains "ft." p4 = false)
    by (apply PyStrFacts.split_head_clean; discriminate).
  split; [|split].
  - exists (r4 ++ r3 ++ r2 ++ r1).
    rewrite H1 at 1. rewrite H2 at 1. rewrite H3 at 1. rewrite H4 at 1.
    now rewrite !PyStrFacts.app_assoc.
  - intros sep Hsep. simpl in Hsep.
    destruct Hsep as [<-|[<-|[<-|[<-|[]]]]].
    + apply (PyStrFacts.contains_prefix_false _ _ (r4 ++ r3 ++ r2)).
      rewrite <- !PyStrFacts.app_assoc, <- H4, <- H3, <- H2. exact C1.
    + apply (PyStrFacts.contains_prefix_false _ _ (r4 ++ r3)).
      rewrite <- !PyStrFacts.app_assoc, <- H4, <- H3. exact C2.
    + apply (PyStrFacts.contains_prefix_false _ _ r4).
      rewrite <- H4. exact C3.
    + exact C4.
  - intros Hnone.
    assert (E1 : p1 = artist)
      by (apply PyStrFacts.split_head_absent, Hnone; simpl; auto).
    assert (E2 : p2 = artist).
    { unfold p2. rewrite E1. apply PyStrFacts.split_head_absent, Hnone; simpl; auto. }
    assert (E3 : p3 = artist).
    { unfold p3. rewrite E2. apply PyStrFacts.split_head_absent, Hnone; simpl; auto. }
    unfold p4. rewrite E3. apply PyStrFacts.split_head_absent, Hnone; simpl; auto.
Qed.

(* ===================================================================== *)
(** ** LyricsCleaner *)
(* ===================================================================== *)

Lemma drop_add i n s : PyStr.drop (i + n) s = PyStr.drop n (PyStr.drop i s).
Proof.
  revert s; induction i as [|i IH]; intros s; [reflexivity|].
  destruct s as [|c s]; cbn; [now destruct n | apply IH].
Qed.

(** When the banner occurs, [remove_banner] keeps what follows its first
    occurrence; otherwise it keeps the text. *)
Lemma remove_banner_spec text track_name :
  let banner := track_name ++ " Lyrics" in
  match PyStr.index_of banner text with
  | Some i =>
      text = PyStr.take i text ++ banner ++ remove_banner text track_name
  | None => remove_banner text track_name = text
  end.
Proof.
  intros banner. unfold remove_banner. fold banner.
  destruct (PyStr.index_of banner text) as [i|] eqn:E; [|reflexivity].
  rewrite drop_add.
  rewrite <- (PyStrFacts.prefix_split banner (PyStr.drop i text))
    by (eapply PyStrFacts.index_of_drop; eauto).
  now rewrite PyStrFacts.take_drop.
Qed.

Lemma clean_lyrics_unfold text track_name :
  clean_lyrics text track_name =
  PyStr.strip
    (remove_section_headers
       (remove_embed_footer (remove_banner text track_name))).
Proof.
  unfold clean_lyrics, remove_section_headers, remove_embed_footer,
    remove_banner, PyStr.contains, PyStr.split_once_tail.
  destruct text as [|c text].
  - cbn [PyStr.truthy negb].
    replace (PyStr.index_of (track_name ++ " Lyrics") "") with (@None nat)
      by (now destruct track_name).
    reflexivity.
  - cbn [PyStr.truthy negb].
    now destruct (PyStr.index_of (track_name ++ " Lyrics") (String c text)).
Qed.

(** *** The two patterns *)

Section Patterns.
Import Re PyStr.

Lemma length_drop n s : String.length (drop n s) = String.length s - n.
Proof.
  revert s; induction n as [|n IH]; intros [|c s]; cbn; auto.
Qed.

Lemma prefix_nil s : prefix "" s = true.
Proof. now destruct s. Qed.

Lemma match_at_lits w p s :
  match_at (lits w ++ p)%list s =
  if prefix w s
  then option_map (Nat.add (String.length w))
                  (match_at p (drop (String.length w) s))
  else None.
Proof.
  revert s; induction w as [|c w IH]; intros s.
  - rewrite prefix_nil. cbn. now destruct (match_at p s).
  - cbn [lits app match_at]. destruct s as [|d s]; [reflexivity|].
    cbn [prefix String.length drop].
    destruct (ascii_dec c d) as [E|E].
    + subst d. rewrite Ascii.eqb_refl, IH.
      destruct (prefix w s); [|reflexivity].
      now destruct (match_at p (drop (String.length w) s)).
    + apply Ascii.eqb_neq in E. now rewrite E.
Qed.

Lemma at_end_length s : at_end s = true -> String.length s <= 1.
Proof. destruct s as [|c [|d s]]; cbn; auto; discriminate. Qed.

(** The literal part of the footer pattern needs ["Embed"] followed by at
    most one character. *)
Lemma match_footer_tail u n :
  match_at (lits "Embed" ++ [EndAnchor])%list u = Some n ->
  prefix "Embed" u = true /\ String.length u <= 6.
Proof.
  rewrite match_at_lits.
  destruct (prefix "Embed" u) eqn:E; [|discriminate].
  cbn [match_at]. destruct (at_end (drop (String.length "Embed") u)) eqn:A;
    [|discriminate].
  intros _. split; [reflexivity|].
  apply at_end_length in A. rewrite length_drop in A. cbn in A. lia.
Qed.

Lemma footer_tail_digit c s :
  digit c = true ->
  match_at (lits "Embed" ++ [EndAnchor])%list (String c s) = None.
Proof.
  intros Hd. cbn [lits app match_at].
  destruct (Ascii.eqb_spec "E" c) as [<-|_]; [discriminate | reflexivity].
Qed.

Lemma match_footer_cons c s :
  match_at embed_footer (String c s) =
  if digit c then option_map S (match_at embed_footer s)
  else match_at (lits "Embed" ++ [EndAnchor])%list (String c s).
Proof.
  unfold embed_footer. cbn [match_at].
  destruct (digit c) eqn:Hd; [|reflexivity].
  rewrite (footer_tail_digit c s Hd).
  match goal with |- match ?x with _ => _ end = _ => now destruct x end.
Qed.

Lemma match_footer_digits ds :
  all_chars digit ds = true ->
  match_at embed_footer (ds ++ "Embed") = Some (String.length ds + 5).
Proof.
  induction ds as [|c ds IH]; [reflexivity|].
  cbn [all_chars]. intros H. apply andb_prop in H as [Hc Hds].
  cbn [append]. rewrite match_footer_cons, Hc, (IH Hds). reflexivity.
Qed.

Lemma ends_with_digit_cons c d s :
  ends_with_digit (String c (String d s)) = ends_with_digit (String d s).
Proof. reflexivity. Qed.

(** No footer match starts inside a text that does not end in a digit. *)
Lemma match_footer_inside body :
  forall c ds,
    ends_with_digit (String c body) = false ->
    match_at embed_footer (String c body ++ ds ++ "Embed") = None.
Proof.
  induction body as [|d body IH]; intros c ds H.
  - cbn [append]. rewrite match_footer_cons.
    cbn in H. rewrite H.
    destruct (match_at _ (String c (ds ++ "Embed"))) as [n|] eqn:E; auto.
    apply match_footer_tail in E as [Hp Hl]. exfalso.
    cbn in Hl. rewrite PyStrFacts.length_app in Hl. cbn in Hl.
    assert (ds = "") by (destruct ds; cbn in Hl; [auto | lia]). subst ds.
    cbn [prefix append] in Hp.
    destruct (ascii_dec "E" c); [|discriminate].
    vm_compute in Hp. discriminate.
  - rewrite ends_with_digit_cons in H.
    change (String c (String d body) ++ ds ++ "Embed")
      with (String c (String d body ++ ds ++ "Embed")).
    rewrite match_footer_cons.
    destruct (digit c).
    + now rewrite (IH d ds H).
    + destruct (match_at _ (String c _)) as [n|] eqn:E; auto.
      apply match_footer_tail in E as [_ Hl]. exfalso.
      cbn in Hl. rewrite PyStrFacts.length_app in Hl. cbn in Hl.
      rewrite PyStrFacts.length_app in Hl. cbn in Hl. lia.
Qed.

Lemma sub_from_skip_all p repl s :
  sub_from p repl (String.length s) s = "".
Proof. induction s as [|c s IH]; cbn; auto. Qed.

(** [re.sub(r"\d*Embed$", "", s)] on a text followed by digits and
    [Embed]: the digits and [Embed] go, the text stays. *)
Lemma remove_embed_footer_spec body ds :
  ends_with_digit body = false ->
  all_chars digit ds = true ->
  remove_embed_footer (body ++ ds ++ "Embed") = body.
Proof.
  unfold remove_embed_footer, Re.sub. intros Hb Hds.
  induction body as [|c body IH].
  - cbn [append]. pose proof (match_footer_digits ds Hds) as Hm.
    destruct (ds ++ "Embed") as [|x rest] eqn:E; [reflexivity|].
    cbn [sub_from]. rewrite Hm.
    assert (Hl : String.length ds + 5 = S (String.length rest)).
    { change (S (String.length rest)) with (String.length (String x rest)).
      rewrite <- E, PyStrFacts.length_app. reflexivity. }
    rewrite Hl. cbn [append]. apply sub_from_skip_all.
  - change (String c body ++ ds ++ "Embed")
      with (String c (body ++ ds ++ "Embed")).
    cbn [sub_from].
    change (String c (body ++ ds ++ "Embed"))
      with (String c body ++ ds ++ "Embed").
    rewrite (match_footer_inside body c ds Hb).
    f_equal. apply IH.
    destruct body as [|d body]; [reflexivity|].
    now rewrite ends_with_digit_cons in Hb.
Qed.

(** The header pattern matches only at an opening bracket. *)
Lemma match_header_other c s :
  not_open_bracket c = true -> match_at section_header (String c s) = None.
Proof.
  unfold not_open_bracket, section_header. cbn [lits app match_at].
  rewrite (Ascii.eqb_sym "[" c). now destruct (Ascii.eqb c "[").
Qed.

Lemma match_header_close x rest :
  all_chars header_char x = true ->
  match_at (LazyStar dot :: lits "]") (x ++ String "]" rest)
  = Some (S (String.length x)).
Proof.
  induction x as [|c x IH]; intros H.
  - cbn. reflexivity.
  - cbn [all_chars] in H. apply andb_prop in H as [Hc Hx].
    unfold header_char in Hc. apply andb_prop in Hc as [Hdot Hclose].
    specialize (IH Hx).
    cbn [append String.length]. cbn [match_at lits] in *.
    rewrite (Ascii.eqb_sym "]" c).
    destruct (Ascii.eqb c "]"); [discriminate|].
    rewrite Hdot. now rewrite IH.
Qed.

Lemma match_header_spec x rest :
  all_chars header_char x = true ->
  match_at section_header (String "[" (x ++ String "]" rest))
  = Some (S (S (String.length x))).
Proof.
  intros H. unfold section_header.
  change (lits "[" ++ LazyStar dot :: lits "]")%list
    with (Lit "[" :: LazyStar dot :: lits "]").
  cbn [match_at]. rewrite Ascii.eqb_refl.
  change (option_map S (match_at (LazyStar dot :: lits "]")
                          (x ++ String "]" rest))
          = Some (S (S (String.length x)))).
  now rewrite match_header_close.
Qed.

Lemma sub_from_skip p repl a rest :
  sub_from p repl (String.length a) (a ++ rest) = sub_from p repl 0 rest.
Proof.
  induction a as [|c a IH]; cbn [append String.length sub_from]; auto.
Qed.

(** Text without an opening bracket passes through header removal. *)
Lemma remove_headers_plain a rest :
  all_chars not_open_bracket a = true ->
  remove_section_headers (a ++ rest) = a ++ remove_section_headers rest.
Proof.
  unfold remove_section_headers, Re.sub.
  induction a as [|c a IH]; intros H; [reflexivity|].
  cbn [all_chars] in H. apply andb_prop in H as [Hc Ha].
  cbn [append sub_from]. rewrite (match_header_other c _ Hc).
  now rewrite (IH Ha).
Qed.

(** A bracketed header on one line is removed whole. *)
Lemma remove_headers_header x rest :
  all_chars header_char x = true ->
  remove_section_headers ("[" ++ x ++ "]" ++ rest)
  = remove_section_headers rest.
Proof.
  intros H. unfold remove_section_headers, Re.sub.
  change ("[" ++ x ++ "]" ++ rest) with (String "[" (x ++ String "]" rest)).
  cbn [sub_from]. rewrite (match_header_spec x rest H).
  cbn [append].
  replace (x ++ String "]" rest) with ((x ++ "]") ++ rest)
    by (now rewrite PyStrFacts.app_assoc).
  replace (S (String.length x)) with (String.length (x ++ "]"))
    by (rewrite PyStrFacts.length_app; cbn; lia).
  apply sub_from_skip.
Qed.

Lemma ends_with_digit_app a b :
  ends_with_digit (a ++ b) =
  match b with
  | EmptyString => ends_with_digit a
  | _ => ends_with_digit b
  end.
Proof.
  induction a as [|c a IH]; [now destruct b|].
  destruct b as [|d b]; [now rewrite PyStrFacts.app_empty_r|].
  cbn [append]. destruct a as [|c' a]; [reflexivity|].
  change (String c' a ++ String d b) with (String c' (a ++ String d b)) in *.
  now rewrite ends_with_digit_cons.
Qed.

Lemma index_of_prefix sub rest : index_of sub (sub ++ rest) = Some 0.
Proof.
  pose proof (PyStrFacts.prefix_app sub rest) as H.
  destruct (sub ++ rest); cbn [index_of]; now rewrite H.
Qed.

End Patterns.

(** The example of the specification, for every title, header, body and
    embed counter: a text made of the banner, one bracketed header, a
    body without opening bracket that does not end in a digit, and the
    counter followed by [Embed], cleans to the trimmed body. *)
Lemma clean_lyrics_typical title header body counter :
  all_chars header_char header = true ->
  all_chars not_open_bracket body = true ->
  ends_with_digit body = false ->
  all_chars Re.digit counter = true ->
  clean_lyrics
    ((title ++ " Lyrics") ++ ("[" ++ header ++ "]" ++ body) ++ counter ++ "Embed")
    title
  = PyStr.strip body.
Proof.
  intros Hh Hb He Hc. rewrite clean_lyrics_unfold. f_equal.
  unfold remove_banner. rewrite index_of_prefix.
  cbn [Nat.add]. rewrite PyStrFacts.drop_app.
  rewrite remove_embed_footer_spec; auto.
  - rewrite remove_headers_header by exact Hh.
    rewrite <- (PyStrFacts.app_empty_r body) at 1.
    rewrite remove_headers_plain by exact Hb.
    cbn. apply PyStrFacts.app_empty_r.
  - change ("[" ++ header ++ "]" ++ body) with (String "[" (header ++ String "]" body)).
    replace (String "[" (header ++ String "]" body))
      with ((String "[" header ++ "]") ++ body)
      by (cbn; now rewrite PyStrFacts.app_assoc).
    rewrite ends_with_digit_app. destruct body; [|exact He].
    rewrite ends_with_digit_app. reflexivity.
Qed.

(** C4. [clean_lyrics] is the composition, in this order, of banner
    removal, removal of the trailing digits and [Embed], removal of the
    bracketed section headers, and trimming; the example of the
    specification evaluates to ["Some words"], and so does every text of
    that shape (banner, one header, a body without opening bracket that
    does not end in a digit, counter and [Embed]); and the order of banner
    and header removal shows in the result: on a text whose banner itself
    holds a bracketed token, removing the headers first would leave the
    banner in place. *)
Theorem clean_lyrics_order :
  (forall text track_name,
      clean_lyrics text track_name =
      PyStr.strip
        (remove_section_headers
           (remove_embed_footer (remove_banner text track_name))))
  /\ clean_lyrics "Song Title Lyrics[Verse]Some words123Embed" "Song Title"
     = "Some words"
  /\ (forall title header body counter,
         all_chars header_char header = true ->
         all_chars not_open_bracket body = true ->
         ends_with_digit body = false ->
         all_chars Re.digit counter = true ->
         clean_lyrics
           ((title ++ " Lyrics") ++ ("[" ++ header ++ "]" ++ body)
            ++ counter ++ "Embed")
           title
         = PyStr.strip body)
  /\ clean_lyrics "A [B] Lyrics[Verse]words7Embed" "A [B]" = "words"
  /\ clean_lyrics_headers_first "A [B] Lyrics[Verse]words7Embed" "A [B]"
     = "A  Lyricswords".
Proof.
  split; [exact clean_lyrics_unfold|].
  split; [reflexivity|].
  split; [exact clean_lyrics_typical|].
  split; reflexivity.
Qed.

Lemma clean_lyrics_order_witness :
  clean_lyrics
    (("Hello" ++ " Lyrics") ++ ("[" ++ "Intro" ++ "]" ++ "La la la ")
     ++ "123" ++ "Embed")
    "Hello"
  = PyStr.strip "La la la ".
Proof.
  apply (proj1 (proj2 (proj2 clean_lyrics_order))); reflexivity.
Defined.

(* ===================================================================== *)
(** ** LyricsFetcher *)
(* ===================================================================== *)

Ltac run_monad :=
  unfold try_except, bind, ret, raise, emit, search_song in *; cbn beta iota in *.

(** C6. For every title and artist whose cleaned title is empty,
    [fetch_lyrics] returns [None] and leaves the trace as it found it:
    the provider's search is not called. *)
Theorem fetch_lyrics_empty_title genius title artist tr :
  PyStr.truthy (clean_track_title title) = false ->
  fetch_lyrics genius title artist tr = (Ok None, tr)
  /\ count is_search (snd (fetch_lyrics genius title artist tr))
     = count is_search tr.
Proof.
  intros H.
  assert (E : fetch_lyrics genius title artist tr = (Ok None, tr)).
  { unfold fetch_lyrics. run_monad. now rewrite H. }
  split; [exact E | now rewrite E].
Qed.

Lemma fetch_lyrics_empty_title_witness :
  fetch_lyrics (always_found "La la la") (VStr "   ") (VStr "A, B") []
  = (Ok None, [])
  /\ count is_search
       (snd (fetch_lyrics (always_found "La la la") (VStr "   ") (VStr "A, B") []))
     = count is_search [].
Proof.
  apply (fetch_lyrics_empty_title (always_found "La la la")
           (VStr "   ") (VStr "A, B") []).
  reflexivity.
Defined.

(** C2 (as stated, refuted). With a blank title the provider would answer
    the query with a match whose lyrics are non-empty and clean to a
    non-empty text, and raises nothing, yet [fetch_lyrics] returns
    [None]. *)
Lemma fetch_lyrics_missing_without_provider_miss :
  fst (fetch_lyrics (always_found "La la la") (VStr "   ") (VStr "A") [])
  = Ok None
  /\ always_found "La la la" [] (clean_track_title (VStr "   "))
       (or_None (clean_artist_name (VStr "A")))
     = Found {| lyrics := "La la la" |}
  /\ clean_lyrics "La la la" (clean_track_title (VStr "   ")) = "La la la".
Proof. repeat split; reflexivity. Qed.

Lemma or_None_None s : or_None s = None <-> s = "".
Proof. unfold or_None. destruct s; simpl; split; congruence. Qed.

Lemma or_None_Some s t : or_None s = Some t -> t = s /\ s <> "".
Proof. unfold or_None. destruct s; simpl; [discriminate|]. intros [= <-]. split; congruence. Qed.

(** C2 (amended). [fetch_lyrics] never raises.  For every title and
    artist whose cleaned title is non-empty, it returns [None] exactly
    when the provider's answer to the query is no match, or a match with
    empty lyrics, or a match whose cleaned lyrics are empty, or an
    exception; in all remaining cases it returns the provider's lyrics
    cleaned by [clean_lyrics] with the cleaned title as banner key. *)
Theorem fetch_lyrics_outcome :
  (forall genius title artist tr,
      exists r tr', fetch_lyrics genius title artist tr = (Ok r, tr'))
  /\ (forall genius title artist tr,
         PyStr.truthy (clean_track_title title) = true ->
         let clean_title := clean_track_title title in
         let answer :=
           genius tr clean_title (or_None (clean_artist_name artist)) in
         exists r,
           fst (fetch_lyrics genius title artist tr) = Ok r
           /\ (r = None <->
               answer = NoMatch
               \/ (exists song, answer = Found song /\ lyrics song = "")
               \/ (exists song, answer = Found song
                                /\ clean_lyrics (lyrics song) clean_title = "")
               \/ (exists e, answer = SearchRaises e))
           /\ (forall song,
                  answer = Found song -> lyrics song <> "" ->
                  clean_lyrics (lyrics song) clean_title <> "" ->
                  r = Some (clean_lyrics (lyrics song) clean_title))).
Proof.
  split.
  - intros genius title artist tr. unfold fetch_lyrics. run_monad.
    destruct (PyStr.truthy (clean_track_title title)); cbn [negb]; eauto.
    destruct (genius tr _ _) as [|song|e]; eauto.
    destruct (PyStr.truthy (lyrics song)); eauto.
  - intros genius title artist tr H clean_title answer.
    unfold fetch_lyrics. run_monad. rewrite H. cbn [negb].
    fold clean_title. fold answer.
    destruct answer as [|song|e] eqn:A.
    + exists None. cbn. split; [reflexivity|]. split; [tauto | discriminate].
    + destruct (PyStr.truthy (lyrics song)) eqn:L.
      * exists (or_None (clean_lyrics (lyrics song) clean_title)).
        cbn. split; [reflexivity|]. split.
        -- rewrite or_None_None. split.
           ++ intros E. right; right; left. eauto.
           ++ intros [?|[(s' & [= <-] & E)|[(s' & [= <-] & E)|(e & ?)]]];
                try discriminate; auto.
              apply PyStrFacts.truthy_true in L. congruence.
        -- intros s' [= <-] _ Hc. unfold or_None.
           apply PyStrFacts.truthy_true in Hc. now rewrite Hc.
      * exists None. cbn. split; [reflexivity|].
        apply PyStrFacts.truthy_false in L. split.
        -- split; [intros _; right; left; eauto | reflexivity].
        -- intros s' [= <-] Hl. congruence.
    + exists None. cbn. split; [reflexivity|]. split.
      * split; [intros _; right; right; right; eauto | reflexivity].
      * discriminate.
Qed.

Lemma fetch_lyrics_outcome_witness :
  exists r,
    fst (fetch_lyrics stub_provider (VStr "Hello (Live)") (VStr "A, B") [])
    = Ok r
    /\ r = Some "La la la".
Proof.
  destruct (proj2 fetch_lyrics_outcome stub_provider (VStr "Hello (Live)")
              (VStr "A, B") [] eq_refl) as (r & Hr & _ & Hfound).
  exists r. split; [exact Hr|].
  apply (Hfound {| lyrics := "Hello Lyrics[Intro]La la la123Embed" |});
    [reflexivity | discriminate | discriminate].
Defined.

(* ===================================================================== *)
(** ** EnrichmentRunner *)
(* ===================================================================== *)


Lemma count_app kind (a b : trace) :
  count kind (a ++ b)%list = count kind a + count kind b.
Proof. unfold count. now rewrite filter_app, length_app. Qed.

(** A fetch appends at most one event, and only a search. *)
Lemma fetch_lyrics_events genius title artist tr :
  exists r evs,
    fetch_lyrics genius title artist tr = (Ok r, (tr ++ evs)%list)
    /\ count is_sleep evs = 0
    /\ count is_search evs <= 1.
Proof.
  unfold fetch_lyrics. run_monad.
  destruct (PyStr.truthy (clean_track_title title)); cbn [negb].
  - destruct (genius tr _ _) as [|song|e].
    2: destruct (PyStr.truthy (lyrics song)).
    all: eexists; eexists; split; [reflexivity|]; cbn; auto.
  - exists None, []. rewrite app_nil_r. cbn; auto.
Qed.

Section Runner.

Variable connect : string -> Genius.
Variable random : trace -> Q.
Hypothesis random_unit : forall tr, (0 <= random tr < 1)%Q.

Lemma random_uniform_bounds tr :
  (MIN_DELAY <= MIN_DELAY + (MAX_DELAY - MIN_DELAY) * random tr <= MAX_DELAY)%Q.
Proof.
  destruct (random_unit tr) as [H0 H1].
  unfold MIN_DELAY, MAX_DELAY. split; lra.
Qed.

Lemma enrich_rows_run genius cols track_col artist_col todo :
  forall lyrics_list tr,
  exists fetched produced,
    enrich_rows random genius cols track_col artist_col todo lyrics_list tr
    = (Ok (lyrics_list ++ fetched)%list, (tr ++ produced)%list)
    /\ enrichment genius cols track_col artist_col tr todo fetched produced.
Proof.
  induction todo as [|row todo IH]; intros lyrics_list tr.
  - exists [], []. cbn. rewrite !app_nil_r. split; [reflexivity | constructor].
  - cbn [enrich_rows].
    destruct (fetch_lyrics_events genius (row_get cols row track_col)
                (row_get cols row artist_col) tr) as (r & evs & Hf & _ & _).
    set (d := (MIN_DELAY + (MAX_DELAY - MIN_DELAY) * random (tr ++ evs)%list)%Q).
    destruct (IH (lyrics_list ++ [r])%list (tr ++ evs ++ [ESleep d])%list)
      as (fetched & produced & Hrun & Hrel).
    exists (r :: fetched), (evs ++ ESleep d :: produced)%list.
    split.
    + unfold bind at 1. rewrite Hf.
      unfold bind, random_uniform, sleep, emit. fold d.
      rewrite <- app_assoc. rewrite Hrun.
      f_equal; rewrite <- !app_assoc; reflexivity.
    + econstructor; eauto. apply random_uniform_bounds.
Qed.

End Runner.

Lemma enrichment_length genius cols tc ac tr todo fetched produced :
  enrichment genius cols tc ac tr todo fetched produced ->
  length fetched = length todo.
Proof. induction 1; cbn; auto. Qed.

Lemma enrichment_sleeps genius cols tc ac tr todo fetched produced :
  enrichment genius cols tc ac tr todo fetched produced ->
  count is_sleep produced = length todo.
Proof.
  induction 1 as [|tr row todo r evs d fetched produced Hf Hd Hrest IH]; [reflexivity|].
  destruct (fetch_lyrics_events genius (row_get cols row tc)
              (row_get cols row ac) tr) as (r' & evs' & Hf' & Hs & _).
  rewrite Hf in Hf'. injection Hf' as _ Hevs.
  apply app_inv_head in Hevs. subst evs'.
  rewrite count_app, Hs. cbn. unfold count in IH. now rewrite IH.
Qed.

Lemma enrichment_searches genius cols tc ac tr todo fetched produced :
  enrichment genius cols tc ac tr todo fetched produced ->
  count is_search produced <= length todo.
Proof.
  induction 1 as [|tr row todo r evs d fetched produced Hf Hd Hrest IH]; [cbn; lia|].
  destruct (fetch_lyrics_events genius (row_get cols row tc)
              (row_get cols row ac) tr) as (r' & evs' & Hf' & _ & Hs).
  rewrite Hf in Hf'. injection Hf' as _ Hevs.
  apply app_inv_head in Hevs. subst evs'.
  rewrite count_app. cbn. unfold count in *. lia.
Qed.

(** The last thing a run over at least one row does is sleep. *)
Lemma enrichment_ends_with_sleep genius cols tc ac tr todo fetched produced :
  enrichment genius cols tc ac tr todo fetched produced ->
  todo <> [] -> exists before d, produced = (before ++ [ESleep d])%list.
Proof.
  induction 1 as [|tr row todo r evs d fetched produced Hf Hd Hrest IH]; [congruence|].
  intros _. destruct todo as [|row' todo].
  - inversion Hrest; subst. exists evs, d. reflexivity.
  - destruct IH as (before & d' & ->); [discriminate|].
    exists (evs ++ ESleep d :: before)%list, d'.
    now rewrite <- app_assoc.
Qed.

(** *** Assigning the lyrics column *)

Lemma nth_error_combine {A B} (a : list A) (b : list B) i :
  nth_error (combine a b) i =
  match nth_error a i, nth_error b i with
  | Some x, Some y => Some (x, y)
  | _, _ => None
  end.
Proof.
  revert b i; induction a as [|x a IH]; intros [|y b] [|i]; cbn; auto.
  now destruct (nth_error a i).
Qed.

Lemma position_Some name cols j :
  position name cols = Some j -> nth_error cols j = Some name.
Proof.
  revert j; induction cols as [|c cols IH]; intros j; cbn; [discriminate|].
  destruct (String.eqb_spec c name) as [->|Hne].
  - now intros [= <-].
  - destruct (position name cols) as [k|]; cbn; [|discriminate].
    intros [= <-]. cbn. auto.
Qed.

Lemma position_has df name :
  has_column df name = true <-> position name (columns df) <> None.
Proof.
  unfold has_column. induction (columns df) as [|c cols IH]; cbn.
  - split; congruence.
  - rewrite (String.eqb_sym name c).
    destruct (String.eqb c name); cbn; [split; congruence|].
    rewrite IH. destruct (position name cols); cbn; split; congruence.
Qed.

Lemma position_app name cols extra j :
  position name cols = Some j -> position name (cols ++ extra)%list = Some j.
Proof.
  revert j; induction cols as [|c cols IH]; intros j; cbn; [discriminate|].
  destruct (String.eqb c name); auto.
  destruct (position name cols) as [k|]; cbn; [|discriminate].
  intros [= <-]. now rewrite (IH k eq_refl).
Qed.

Lemma position_app_new name cols other :
  position name cols = None ->
  position name (cols ++ [other])%list =
  if String.eqb other name then Some (length cols) else None.
Proof.
  induction cols as [|c cols IH]; cbn.
  - now destruct (String.eqb other name).
  - destruct (String.eqb c name); [discriminate|].
    destruct (position name cols); cbn; [discriminate|].
    intros _. rewrite IH by reflexivity. now destruct (String.eqb other name).
Qed.

Section SetColumn.

Variables (df out : DataFrame) (name : string) (vals : list value).
Variables (tr tr' : trace).
Hypothesis shape : well_formed df.
Hypothesis assigned : set_column df name vals tr = (Ok out, tr').

Lemma set_column_length : length vals = length (rows df).
Proof.
  revert assigned. unfold set_column.
  destruct (Nat.eqb_spec (length vals) (length (rows df))); auto.
  cbn. unfold raise. discriminate.
Qed.

Lemma set_column_rows : length (rows out) = length (rows df).
Proof.
  pose proof set_column_length as L.
  revert assigned. unfold set_column.
  rewrite L, Nat.eqb_refl. cbn [negb].
  destruct (has_column df name); unfold ret; intros [= <- _]; cbn;
    rewrite length_map, length_combine; lia.
Qed.

Lemma set_column_columns :
  columns out = columns df \/ columns out = (columns df ++ [name])%list.
Proof.
  pose proof set_column_length as L.
  revert assigned. unfold set_column.
  rewrite L, Nat.eqb_refl. cbn [negb].
  destruct (has_column df name); unfold ret; intros [= <- _]; cbn; auto.
Qed.

Lemma set_column_other i col :
  col <> name -> cell out i col = cell df i col.
Proof.
  intros Hne. pose proof set_column_length as L.
  revert assigned. unfold set_column.
  rewrite L, Nat.eqb_refl. cbn [negb].
  destruct (has_column df name) eqn:Hhas; unfold ret; intros [= <- _];
    unfold cell; cbn [columns rows].
  - destruct (position col (columns df)) as [j|] eqn:P; [|reflexivity].
    rewrite nth_error_map, nth_error_combine.
    destruct (nth_error (rows df) i) as [row|] eqn:R; [|reflexivity].
    destruct (nth_error vals i) as [v|] eqn:V.
    + cbn. rewrite nth_error_map, nth_error_combine.
      rewrite (position_Some _ _ _ P).
      destruct (nth_error row j) as [x|]; cbn; [|reflexivity].
      apply String.eqb_neq in Hne. now rewrite Hne.
    + apply nth_error_None in V.
      assert (i < length (rows df)) by (apply nth_error_Some; congruence). lia.
  - destruct (position col (columns df)) as [j|] eqn:P.
    + rewrite (position_app _ _ _ _ P).
      rewrite nth_error_map, nth_error_combine.
      destruct (nth_error (rows df) i) as [row|] eqn:R; [|reflexivity].
      destruct (nth_error vals i) as [v|] eqn:V.
      * cbn. apply nth_error_app1.
        assert (Hrow : length row = length (columns df)).
        { unfold well_formed in shape. rewrite Forall_forall in shape.
          apply shape. eapply nth_error_In; eauto. }
        rewrite Hrow. apply nth_error_Some.
        rewrite (position_Some _ _ _ P). discriminate.
      * apply nth_error_None in V.
        assert (i < length (rows df)) by (apply nth_error_Some; congruence). lia.
    + rewrite position_app_new by exact P.
      apply not_eq_sym in Hne. apply String.eqb_neq in Hne. now rewrite Hne.
Qed.

Lemma set_column_same i : i < length (rows df) -> cell out i name = nth_error vals i.
Proof.
  intros Hi. pose proof set_column_length as L.
  revert assigned. unfold set_column.
  rewrite L, Nat.eqb_refl. cbn [negb].
  destruct (nth_error (rows df) i) as [row|] eqn:R;
    [|apply nth_error_None in R; lia].
  destruct (nth_error vals i) as [v|] eqn:V;
    [|apply nth_error_None in V; lia].
  assert (Hrow : length row = length (columns df)).
  { unfold well_formed in shape. rewrite Forall_forall in shape.
    apply shape. eapply nth_error_In; eauto. }
  destruct (has_column df name) eqn:Hhas; unfold ret; intros [= <- _];
    unfold cell; cbn [columns rows].
  - destruct (position name (columns df)) as [j|] eqn:P.
    + rewrite nth_error_map, nth_error_combine, R, V. cbn.
      rewrite nth_error_map, nth_error_combine.
      rewrite (position_Some _ _ _ P).
      destruct (nth_error row j) as [x|] eqn:X.
      * cbn. now rewrite String.eqb_refl.
      * apply nth_error_None in X.
        assert (j < length (columns df)).
        { apply nth_error_Some. rewrite (position_Some _ _ _ P). discriminate. }
        lia.
    + apply position_has in Hhas. congruence.
  - assert (P : position name (columns df) = None).
    { destruct (position name (columns df)) eqn:P; auto.
      assert (has_column df name = true) by (apply position_has; congruence).
      congruence. }
    rewrite position_app_new by exact P. rewrite String.eqb_refl.
    rewrite nth_error_map, nth_error_combine, R, V. cbn.
    rewrite <- Hrow. rewrite nth_error_app2 by lia.
    now rewrite Nat.sub_diag.
Qed.

End SetColumn.

(** *** The whole of [main] *)

Section MainRun.

Variable connect : string -> Genius.
Variable random : trace -> Q.
Variables (env : environment) (df : DataFrame) (token : string).
Hypothesis random_unit : forall tr, (0 <= random tr < 1)%Q.
Hypothesis file_present : input_file env = Some df.
Hypothesis two_columns : 2 <= length (columns df).
Hypothesis token_present : GENIUS_ACCESS_TOKEN env = Some token.
Hypothesis token_not_empty : token <> "".

(** Past its start-up checks, [main] is the loop followed by the
    assignment of the lyrics column. *)
Lemma main_run tr :
  exists out fetched produced,
    main connect random env tr = (Ok out, (tr ++ produced)%list)
    /\ set_column df "lyrics" (map lyrics_value fetched) (tr ++ produced)%list
       = (Ok out, (tr ++ produced)%list)
    /\ enrichment (connect token) (columns df) (track_column df)
                  (artist_column df) tr (rows df) fetched produced.
Proof.
  destruct (enrich_rows_run random random_unit (connect token) (columns df)
              (track_column df) (artist_column df) (rows df) [] tr)
    as (fetched & produced & Hrun & Hrel).
  pose proof (enrichment_length _ _ _ _ _ _ _ _ Hrel) as Hlen.
  assert (Hset : exists out,
             set_column df "lyrics" (map lyrics_value fetched)
                        (tr ++ produced)%list = (Ok out, (tr ++ produced)%list)).
  { unfold set_column. rewrite length_map, Hlen, Nat.eqb_refl. cbn [negb].
    destruct (has_column df "lyrics"); unfold ret; eauto. }
  destruct Hset as [out Hset].
  exists out, fetched, produced. split; [|split; assumption].
  unfold main. rewrite file_present.
  destruct (Nat.ltb_spec (length (columns df)) 2); [lia|].
  unfold authenticate_genius. rewrite token_present.
  apply PyStrFacts.truthy_true in token_not_empty.
  rewrite token_not_empty. cbn [negb].
  unfold bind at 1. unfold ret at 1.
  fold (track_column df). fold (artist_column df).
  unfold bind. rewrite Hrun. exact Hset.
Qed.

End MainRun.

(** C7. In a run of [main] that passes its start-up checks over a table
    of N rows, every call of [fetch_lyrics] is followed by exactly one
    sleep whose length lies in [MIN_DELAY, MAX_DELAY], whatever the call
    returned and also after the last row: the run appends N sleep events,
    one per fetch, and it ends with a sleep when N > 0. *)
Theorem main_sleeps_after_every_fetch connect random env df token tr :
  (forall t, (0 <= random t < 1)%Q) ->
  input_file env = Some df ->
  2 <= length (columns df) ->
  GENIUS_ACCESS_TOKEN env = Some token ->
  token <> "" ->
  exists out fetched produced,
    main connect random env tr = (Ok out, (tr ++ produced)%list)
    /\ enrichment (connect token) (columns df) (track_column df)
                  (artist_column df) tr (rows df) fetched produced
    /\ length fetched = length (rows df)
    /\ count is_sleep produced = length (rows df)
    /\ (rows df <> [] ->
        exists before d, produced = (before ++ [ESleep d])%list).
Proof.
  intros Hrand Hfile Hcols Htok Hne.
  destruct (main_run connect random env df token Hrand Hfile Hcols Htok Hne tr)
    as (out & fetched & produced & Hmain & _ & Hrel).
  exists out, fetched, produced.
  split; [exact Hmain|]. split; [exact Hrel|].
  split; [eapply enrichment_length; eauto|].
  split; [eapply enrichment_sleeps; eauto|].
  eapply enrichment_ends_with_sleep; eauto.
Qed.

(** C3. In a run of [main] that passes its start-up checks over a
    well-formed table of N rows, the table written has N rows and the
    columns of the input, with [lyrics] added when it was not one; every cell
    of a column other than [lyrics] is the cell of the input at the same
    row; and the [lyrics] cell of row i is the text the i-th fetch
    returned, and is null exactly when the i-th fetch returned [None]. *)
Theorem main_preserves_rows connect random env df token tr :
  (forall t, (0 <= random t < 1)%Q) ->
  input_file env = Some df ->
  2 <= length (columns df) ->
  GENIUS_ACCESS_TOKEN env = Some token ->
  token <> "" ->
  well_formed df ->
  exists out fetched produced,
    main connect random env tr = (Ok out, (tr ++ produced)%list)
    /\ enrichment (connect token) (columns df) (track_column df)
                  (artist_column df) tr (rows df) fetched produced
    /\ length (rows out) = length (rows df)
    /\ length fetched = length (rows df)
    /\ (columns out = columns df
        \/ columns out = (columns df ++ ["lyrics"])%list)
    /\ (forall i col, col <> "lyrics" -> cell out i col = cell df i col)
    /\ (forall i text,
           nth_error fetched i = Some (Some text) ->
           cell out i "lyrics" = Some (VStr text))
    /\ (forall i,
           nth_error fetched i = Some None <->
           cell out i "lyrics" = Some VNone).
Proof.
  intros Hrand Hfile Hcols Htok Hne Hwf.
  destruct (main_run connect random env df token Hrand Hfile Hcols Htok Hne tr)
    as (out & fetched & produced & Hmain & Hset & Hrel).
  pose proof (enrichment_length _ _ _ _ _ _ _ _ Hrel) as Hlen.
  assert (Hcell : forall i, i < length (rows df) ->
            cell out i "lyrics" = option_map lyrics_value (nth_error fetched i)).
  { intros i Hi.
    rewrite (set_column_same df out "lyrics" _ _ _ Hwf Hset i Hi).
    apply nth_error_map. }
  exists out, fetched, produced.
  split; [exact Hmain|]. split; [exact Hrel|].
  split; [eapply set_column_rows; eauto|].
  split; [exact Hlen|].
  split; [eapply set_column_columns; eauto|].
  split; [intros i col Hcol; eapply set_column_other; eauto|].
  split.
  - intros i text Hi.
    assert (i < length (rows df))
      by (rewrite <- Hlen; apply nth_error_Some; congruence).
    rewrite Hcell by assumption. now rewrite Hi.
  - intros i. split.
    + intros Hi.
      assert (i < length (rows df))
        by (rewrite <- Hlen; apply nth_error_Some; congruence).
      rewrite Hcell by assumption. now rewrite Hi.
    + intros Hc.
      destruct (Nat.lt_ge_cases i (length (rows df))) as [Hi|Hi].
      * rewrite Hcell in Hc by assumption.
        destruct (nth_error fetched i) as [[text|]|]; cbn in Hc; congruence.
      * unfold cell in Hc.
        assert (Hout : nth_error (rows out) i = None).
        { apply nth_error_None.
          rewrite (set_column_rows df out "lyrics" _ _ _ Hset). exact Hi. }
        rewrite Hout in Hc.
        destruct (position "lyrics" (columns out)); discriminate.
Qed.

(** C8. When [GENIUS_ACCESS_TOKEN] is not set (or is set to the empty
    string), [main] raises before any row is processed: the run ends in
    an exception and appends no event to the trace, so there was no
    search and no sleep; past the checks of the input file the exception
    is [EnvironmentError]. *)
Theorem main_without_token connect random env tr :
  GENIUS_ACCESS_TOKEN env = None \/ GENIUS_ACCESS_TOKEN env = Some "" ->
  exists e,
    main connect random env tr = (Raised e, tr)
    /\ (forall df, input_file env = Some df -> 2 <= length (columns df) ->
                   e = EnvironmentError).
Proof.
  intros Htok. unfold main.
  destruct (input_file env) as [df|].
  - destruct (Nat.ltb_spec (length (columns df)) 2).
    + exists ValueError. split; [reflexivity|].
      intros df' [= <-] Hc. lia.
    + exists EnvironmentError. split; [|reflexivity].
      unfold authenticate_genius, bind.
      destruct Htok as [-> | ->]; reflexivity.
  - exists FileNotFoundError. split; [reflexivity | discriminate].
Qed.

Lemma midpoint_unit : forall t, (0 <= midpoint t < 1)%Q.
Proof. intros t. split; [discriminate | reflexivity]. Defined.

Lemma example_well_formed : well_formed example_table.
Proof. repeat constructor. Defined.

Lemma main_sleeps_after_every_fetch_witness :
  exists out fetched produced,
    main (fun _ => stub_provider) midpoint example_env []
    = (Ok out, ([] ++ produced)%list)
    /\ enrichment stub_provider (columns example_table)
                  (track_column example_table) (artist_column example_table)
                  [] (rows example_table) fetched produced
    /\ length fetched = length (rows example_table)
    /\ count is_sleep produced = length (rows example_table)
    /\ (rows example_table <> [] ->
        exists before d, produced = (before ++ [ESleep d])%list).
Proof.
  apply (main_sleeps_after_every_fetch (fun _ => stub_provider) midpoint
           example_env example_table "token" []).
  - exact midpoint_unit.
  - reflexivity.
  - cbn; lia.
  - reflexivity.
  - discriminate.
Defined.

Lemma main_preserves_rows_witness :
  exists out fetched produced,
    main (fun _ => stub_provider) midpoint example_env []
    = (Ok out, ([] ++ produced)%list)
    /\ enrichment stub_provider (columns example_table)
                  (track_column example_table) (artist_column example_table)
                  [] (rows example_table) fetched produced
    /\ length (rows out) = length (rows example_table)
    /\ length fetched = length (rows example_table)
    /\ (columns out = columns example_table
        \/ columns out = (columns example_table ++ ["lyrics"])%list)
    /\ (forall i col, col <> "lyrics" ->
                      cell out i col = cell example_table i col)
    /\ (forall i text,
           nth_error fetched i = Some (Some text) ->
           cell out i "lyrics" = Some (VStr text))
    /\ (forall i,
           nth_error fetched i = Some None <->
           cell out i "lyrics" = Some VNone).
Proof.
  apply (main_preserves_rows (fun _ => stub_provider) midpoint
           example_env example_table "token" []).
  - exact midpoint_unit.
  - reflexivity.
  - cbn; lia.
  - reflexivity.
  - discriminate.
  - exact example_well_formed.
Defined.

Lemma main_without_token_witness :
  exists e,
    main (fun _ => stub_provider) midpoint no_token_env [] = (Raised e, [])
    /\ (forall df, input_file no_token_env = Some df ->
                   2 <= length (columns df) -> e = EnvironmentError).
Proof.
  apply (main_without_token (fun _ => stub_provider) midpoint no_token_env []).
  left; reflexivity.
Defined.

(** The end-to-end scenario of the specification. *)
Example main_end_to_end :
  fst (main (fun _ => stub_provider) midpoint example_env []) =
  Ok {| columns := ["track_name"; "artist_names"; "streams"; "lyrics"];
        rows := [[VStr "Hello (Live)"; VStr "A, B"; VInt 10; VStr "La la la"];
                 [VStr ""; VStr "C"; VInt 7; VNone]] |}
  /\ snd (main (fun _ => stub_provider) midpoint example_env []) =
     [ESearch "Hello" (Some "A"); ESleep (5 # 4); ESleep (5 # 4)].
Proof. split; vm_compute; reflexivity. Qed.

(* ===================================================================== *)
(** ** Emotion scorer *)
(* ===================================================================== *)

Lemma rstrip_empty s : PyStr.rstrip s = "" <-> all_space s = true.
Proof.
  induction s as [|c s IH]; cbn; [tauto|].
  destruct (PyStr.rstrip s) as [|d r].
  - assert (Hs : all_space s = true) by (apply IH; reflexivity).
    rewrite Hs, andb_true_r.
    destruct (PyStr.isspace c); split; congruence.
  - assert (Hs : all_space s = false).
    { destruct (all_space s); auto.
      destruct IH as [_ IH]. specialize (IH eq_refl). discriminate. }
    rewrite Hs, andb_false_r. split; discriminate.
Qed.

Lemma lstrip_all_space s : all_space (PyStr.lstrip s) = all_space s.
Proof.
  induction s as [|c s IH]; cbn; [reflexivity|].
  destruct (PyStr.isspace c) eqn:E; cbn; [exact IH | now rewrite E].
Qed.

(** [strip] leaves nothing exactly of the texts made of whitespace. *)
Lemma strip_empty s : PyStr.strip s = "" <-> all_space s = true.
Proof. unfold PyStr.strip. now rewrite rstrip_empty, lstrip_all_space. Qed.



(** *** The dict of scores *)

Lemma dict_get_set d k v k' :
  dict_get (dict_set d k v) k' =
  if String.eqb k k' then Some v else dict_get d k'.
Proof.
  induction d as [|[k0 v0] d IH]; cbn.
  - reflexivity.
  - destruct (String.eqb_spec k0 k) as [->|Hne]; cbn.
    + now destruct (String.eqb k k').
    + rewrite IH. destruct (String.eqb_spec k0 k') as [->|Hne'].
      * apply not_eq_sym in Hne. apply String.eqb_neq in Hne. now rewrite Hne.
      * reflexivity.
Qed.

Lemma dict_set_keys d k v :
  In k (map fst d) -> map fst (dict_set d k v) = map fst d.
Proof.
  induction d as [|[k0 v0] d IH]; cbn; [tauto|].
  destruct (String.eqb_spec k0 k) as [->|Hne]; cbn; [reflexivity|].
  intros [H|H]; [congruence|]. now rewrite IH.
Qed.

Lemma score_key_inj a b : score_key a = score_key b -> a = b.
Proof. unfold score_key. cbn. congruence. Qed.

Lemma score_key_eqb a b : String.eqb (score_key a) (score_key b) = String.eqb a b.
Proof.
  destruct (String.eqb_spec a b) as [->|Hne].
  - apply String.eqb_refl.
  - apply String.eqb_neq. intros H; apply Hne, score_key_inj, H.
Qed.

Lemma is_label_column l : is_label l = true -> In (score_key l) score_columns.
Proof.
  unfold is_label, EMOTION_LABELS. cbn [existsb].
  repeat match goal with
         | |- context [String.eqb l ?x] =>
             destruct (String.eqb_spec l x) as [->|_];
             [intros _; cbn; tauto|]
         end.
  cbn. discriminate.
Qed.

Lemma is_label_In e : In e EMOTION_LABELS -> is_label e = true.
Proof.
  unfold is_label. intros H. apply existsb_exists.
  exists e. split; [exact H | apply String.eqb_refl].
Qed.

(** The loop either records every entry, or stops at the first one it
    cannot read. *)
Lemma record_scores_run results :
  forall scores tr,
    map fst scores = score_columns ->
    if forallb readable results then
      exists d,
        record_scores results scores tr = (Ok d, tr)
        /\ map fst d = score_columns
        /\ forall e, In e EMOTION_LABELS ->
             dict_get d (score_key e) =
             match returned_score e results with
             | Some q => Some (Some q)
             | None => dict_get scores (score_key e)
             end
    else record_scores results scores tr = (Raised KeyError, tr).
Proof.
  induction results as [|[l q|l|] results IH]; intros scores tr Hkeys.
  - cbn. exists scores. auto.
  - cbn [forallb readable andb record_scores].
    destruct (is_label (PyStr.lower l)) eqn:Hl.
    + assert (Hkeys' :
          map fst (dict_set scores (score_key (PyStr.lower l)) (Some q))
          = score_columns).
      { rewrite dict_set_keys; auto.
        rewrite Hkeys. now apply is_label_column. }
      specialize (IH _ tr Hkeys').
      destruct (forallb readable results); [|exact IH].
      destruct IH as (d & Hrun & Hd & Hget).
      exists d. split; [exact Hrun|]. split; [exact Hd|].
      intros e He. rewrite (Hget e He). cbn [returned_score].
      destruct (returned_score e results); [reflexivity|].
      rewrite dict_get_set, score_key_eqb.
      now destruct (String.eqb (PyStr.lower l) e).
    + specialize (IH scores tr Hkeys).
      destruct (forallb readable results); [|exact IH].
      destruct IH as (d & Hrun & Hd & Hget).
      exists d. split; [exact Hrun|]. split; [exact Hd|].
      intros e He. rewrite (Hget e He). cbn [returned_score].
      destruct (returned_score e results); [reflexivity|].
      destruct (String.eqb_spec (PyStr.lower l) e) as [E|_]; [|reflexivity].
      apply is_label_In in He. congruence.
  - cbn [forallb readable andb record_scores].
    destruct (is_label (PyStr.lower l)) eqn:Hl; cbn [negb andb];
      [reflexivity|].
    specialize (IH scores tr Hkeys).
    destruct (forallb readable results); [|exact IH].
    destruct IH as (d & Hrun & Hd & Hget).
    exists d. split; [exact Hrun|]. split; [exact Hd|].
    intros e He. rewrite (Hget e He). cbn [returned_score].
    now destruct (returned_score e results).
  - reflexivity.
Qed.

Lemma fresh_scores_get v e :
  In e EMOTION_LABELS -> dict_get (fresh_scores v) (score_key e) = Some v.
Proof.
  cbn. intros [<-|[<-|[<-|[<-|[<-|[<-|[<-|[]]]]]]]]; reflexivity.
Qed.

(** Entries whose label is outside the fixed set do not bear on any of
    the seven scores. *)
Lemma returned_score_known e rs :
  In e EMOTION_LABELS ->
  returned_score e rs = returned_score e (filter known_entry rs).
Proof.
  intros He. induction rs as [|[l q|l|] rs IH]; [reflexivity| | |].
  - cbn [filter known_entry returned_score].
    destruct (is_label (PyStr.lower l)) eqn:Hl;
      cbn [returned_score]; rewrite <- IH; [reflexivity|].
    destruct (returned_score e rs); [reflexivity|].
    destruct (String.eqb_spec (PyStr.lower l) e) as [E|_]; [|reflexivity].
    apply is_label_In in He. congruence.
  - cbn [filter known_entry returned_score]. rewrite <- IH.
    now destruct (returned_score e rs).
  - cbn [filter known_entry returned_score]. rewrite <- IH.
    now destruct (returned_score e rs).
Qed.

(** C10. For every classifier, text and trace, [analyze_emotions] returns
    a dict whose keys are exactly the seven score columns.  On the null
    path (the text is not a string or is blank, or the classifier raises,
    or one of its results cannot be read) all seven values are null.  On
    the success path (the classifier answered a non-blank text with
    results that can all be read) the value of each label of the fixed
    set is the score of the last result carrying that label (compared in
    lower case), and 0.0 when no result carries it; results with a label
    outside the fixed set have no effect on any value. *)
Theorem analyze_emotions_columns classifier text tr :
  exists d tr',
    analyze_emotions classifier text tr = (Ok d, tr')
    /\ map fst d = score_columns
    /\ (blank text = true
        \/ (exists t e, text = VStr t /\ classifier tr t = ClassifierRaises e)
        \/ (exists t rs, text = VStr t /\ classifier tr t = Results rs
                         /\ forallb readable rs = false) ->
        Forall (fun kv => snd kv = None) d)
    /\ (forall t rs,
           text = VStr t ->
           blank text = false ->
           classifier tr t = Results rs ->
           forallb readable rs = true ->
           forall e, In e EMOTION_LABELS ->
             dict_get d (score_key e) =
             Some (Some match returned_score e rs with
                        | Some q => q
                        | None => 0%Q
                        end))
    /\ (forall e rs, In e EMOTION_LABELS ->
          returned_score e rs = returned_score e (filter known_entry rs)).
Proof.
  assert (Hnulls : Forall (fun kv : string * option Q => snd kv = None)
                          (fresh_scores None)) by repeat constructor.
  assert (Hknown : forall e rs, In e EMOTION_LABELS ->
             returned_score e rs = returned_score e (filter known_entry rs))
    by (intros e rs He; now apply returned_score_known).
  destruct text as [t| | |n];
    try (exists (fresh_scores None), tr;
         split; [reflexivity|]; split; [reflexivity|];
         split; [intros _; exact Hnulls|];
         split; [intros t rs [=] | exact Hknown]).
  unfold analyze_emotions, blank.
  destruct (all_space t) eqn:A.
  - apply strip_empty in A. rewrite A. cbn [PyStr.truthy negb].
    exists (fresh_scores None), tr.
    split; [reflexivity|]. split; [reflexivity|].
    split; [intros _; exact Hnulls|].
    split; [intros t' rs _ [=] | exact Hknown].
  - assert (T : PyStr.truthy (PyStr.strip t) = true).
    { apply PyStrFacts.truthy_true. intros H. apply strip_empty in H.
      congruence. }
    rewrite T. cbn [negb].
    unfold try_except, bind, call_classifier.
    destruct (classifier tr t) as [rs|e] eqn:Hc.
    + pose proof (record_scores_run rs (fresh_scores (Some 0%Q))
                    (tr ++ [EClassify t])%list eq_refl) as Hrun.
      destruct (forallb readable rs) eqn:R.
      * destruct Hrun as (d & Hrun & Hd & Hget).
        rewrite Hrun. exists d, (tr ++ [EClassify t])%list.
        split; [reflexivity|]. split; [exact Hd|]. split; [|split].
        -- intros [H|[(t' & e & [= <-] & H)|(t' & rs' & [= <-] & H & R')]];
             try discriminate; congruence.
        -- intros t' rs' [= <-] _ Hr _ e He.
           rewrite Hc in Hr. injection Hr as <-. rewrite (Hget e He).
           destruct (returned_score e rs); [reflexivity|].
           now apply fresh_scores_get.
        -- exact Hknown.
      * rewrite Hrun. exists (fresh_scores None), (tr ++ [EClassify t])%list.
        split; [reflexivity|]. split; [reflexivity|].
        split; [intros _; exact Hnulls|].
        split; [|exact Hknown].
        intros t' rs' [= <-] _ Hr R'. congruence.
    + exists (fresh_scores None), (tr ++ [EClassify t])%list.
      split; [reflexivity|]. split; [reflexivity|].
      split; [intros _; exact Hnulls|].
      split; [|exact Hknown].
      intros t' rs' [= <-] _ Hr. congruence.
Qed.

Lemma analyze_emotions_columns_witness :
  exists d,
    fst (analyze_emotions
           (constant_classifier
              [Entry "JOY" (9 # 10); Entry "weird" (1 # 2);
               Unscored "odd"; Entry "joy" (4 # 5)])
           (VStr "la la") [])
    = Ok d
    /\ dict_get d (score_key "joy") = Some (Some (4 # 5)%Q)
    /\ dict_get d (score_key "fear") = Some (Some 0%Q).
Proof.
  destruct (analyze_emotions_columns
              (constant_classifier
                 [Entry "JOY" (9 # 10); Entry "weird" (1 # 2);
                  Unscored "odd"; Entry "joy" (4 # 5)])
              (VStr "la la") [])
    as (d & tr' & Hrun & _ & _ & Hscores & _).
  exists d. split; [now rewrite Hrun|]. split.
  - apply (Hscores "la la" _ eq_refl eq_refl eq_refl eq_refl "joy").
    cbn; tauto.
  - apply (Hscores "la la" _ eq_refl eq_refl eq_refl eq_refl "fear").
    cbn; tauto.
Defined.

(* ===================================================================== *)
(** ** Further properties of the normalisers *)
(* ===================================================================== *)

Section Trimming.
Import PyStr.

Lemma rstrip_cons_nonspace c s :
  isspace c = false -> exists r, rstrip (String c s) = String c r.
Proof.
  intros H. cbn. destruct (rstrip s); rewrite ?H; eauto.
Qed.

Lemma lstrip_nonspace c s : isspace c = false -> lstrip (String c s) = String c s.
Proof. intros H. cbn. now rewrite H. Qed.

Lemma lstrip_idem s : lstrip (lstrip s) = lstrip s.
Proof.
  induction s as [|c s IH]; [reflexivity|]. cbn.
  destruct (isspace c) eqn:E; [exact IH | now apply lstrip_nonspace].
Qed.

Lemma rstrip_idem s : rstrip (rstrip s) = rstrip s.
Proof.
  induction s as [|c s IH]; [reflexivity|]. cbn.
  destruct (rstrip s) as [|d r] eqn:E.
  - destruct (isspace c) eqn:Hc; [reflexivity|]. cbn. now rewrite Hc.
  - cbn [rstrip]. cbn [rstrip] in IH. now rewrite IH.
Qed.

Lemma lstrip_rstrip s : lstrip (rstrip s) = rstrip (lstrip s).
Proof.
  induction s as [|c s IH]; [reflexivity|].
  destruct (isspace c) eqn:Hc.
  - cbn [lstrip]. rewrite Hc, <- IH. cbn [rstrip].
    destruct (rstrip s) as [|d r]; rewrite ?Hc; [reflexivity|].
    cbn [lstrip]. now rewrite Hc.
  - rewrite (lstrip_nonspace c s Hc).
    destruct (rstrip_cons_nonspace c s Hc) as [r ->].
    now apply lstrip_nonspace.
Qed.

(** Trimming a trimmed text changes nothing. *)
Lemma strip_idem s : strip (strip s) = strip s.
Proof.
  unfold strip. now rewrite lstrip_rstrip, lstrip_idem, rstrip_idem.
Qed.

Lemma earliest_lstrip_none P s :
  earliest P s = None -> earliest P (lstrip s) = None.
Proof.
  induction s as [|c s IH]; [reflexivity|]. intros H. cbn [lstrip].
  destruct (isspace c); [|exact H].
  apply IH. cbn in H. destruct (P c); [discriminate|].
  now destruct (earliest P s).
Qed.

Lemma earliest_rstrip_none P s :
  earliest P s = None -> earliest P (rstrip s) = None.
Proof.
  induction s as [|c s IH]; [reflexivity|]. intros H. cbn in H.
  destruct (P c) eqn:Pc; [discriminate|].
  destruct (earliest P s) eqn:E; [discriminate|].
  specialize (IH eq_refl). cbn [rstrip].
  destruct (rstrip s) as [|d r].
  - destruct (isspace c); cbn; now rewrite ?Pc.
  - change (earliest P (String c (String d r)))
      with (if P c then Some 0 else option_map S (earliest P (String d r))).
    now rewrite Pc, IH.
Qed.

Lemma earliest_strip_none P s :
  earliest P s = None -> earliest P (strip s) = None.
Proof.
  intros H. now apply earliest_rstrip_none, earliest_lstrip_none.
Qed.

Lemma earliest_take P s i :
  earliest P s = Some i -> earliest P (take i s) = None.
Proof.
  revert i; induction s as [|c s IH]; intros i; cbn; [discriminate|].
  destruct (P c) eqn:Pc; [intros [= <-]; reflexivity|].
  destruct (earliest P s) as [j|]; cbn; [|discriminate].
  intros [= <-]. cbn. now rewrite Pc, (IH j eq_refl).
Qed.

Lemma earliest_drop P s i :
  earliest P s = Some i -> exists c rest, drop i s = String c rest /\ P c = true.
Proof.
  revert i; induction s as [|c s IH]; intros i; cbn; [discriminate|].
  destruct (P c) eqn:Pc; [intros [= <-]; cbn; eauto|].
  destruct (earliest P s) as [j|]; cbn; [|discriminate].
  intros [= <-]. cbn. now apply IH.
Qed.

Lemma all_space_take i s : all_space s = true -> all_space (take i s) = true.
Proof.
  revert i; induction s as [|c s IH]; intros [|i]; cbn; auto.
  intros H. apply andb_prop in H as [Hc Hs]. now rewrite Hc, IH.
Qed.

Lemma lstrip_drop i s :
  all_space (take i s) = true -> lstrip s = lstrip (drop i s).
Proof.
  revert s; induction i as [|i IH]; intros [|c s]; cbn; auto.
  intros H. apply andb_prop in H as [Hc Hs]. rewrite Hc. now apply IH.
Qed.

Lemma descriptor_not_space c : descriptor_opening c = true -> isspace c = false.
Proof.
  unfold descriptor_opening. intros H. apply orb_prop in H as [H|H];
    apply Ascii.eqb_eq in H; subst; reflexivity.
Qed.

End Trimming.

(** The cleaned title is empty exactly on the values [blank] accepts. *)
Lemma clean_track_title_truthy title :
  PyStr.truthy (clean_track_title title) = negb (blank title).
Proof.
  rewrite clean_track_title_refines.
  destruct title as [t| | |n]; try reflexivity.
  unfold normalize_title, blank.
  set (truncated := match earliest descriptor_opening t with
                    | Some i => PyStr.take i t
                    | None => t
                    end).
  destruct (String.eqb_spec (PyStr.strip truncated) "") as [E|E].
  - destruct (all_space t) eqn:A.
    + apply strip_empty in A. now rewrite A.
    + cbn. apply PyStrFacts.truthy_true. intros H.
      apply strip_empty in H. congruence.
  - assert (A : all_space t = false).
    { destruct (all_space t) eqn:A; auto. exfalso. apply E.
      apply strip_empty. unfold truncated.
      destruct (earliest descriptor_opening t); auto.
      now apply all_space_take. }
    rewrite A. cbn. now apply PyStrFacts.truthy_true.
Qed.

(** X1. [clean_track_title] returns the empty string exactly when the
    title is not a string or is made of whitespace only: a title with any
    visible character always yields a non-empty search title. *)
Theorem clean_track_title_empty_iff title :
  clean_track_title title = "" <-> blank title = true.
Proof.
  rewrite <- PyStrFacts.truthy_false, clean_track_title_truthy.
  destruct (blank title); cbn; split; congruence.
Qed.

Lemma if_same {A} (b : bool) (x : A) : (if b then x else x) = x.
Proof. now destruct b. Qed.

Lemma normalize_title_fixed t :
  normalize_title (VStr (normalize_title (VStr t))) = normalize_title (VStr t).
Proof.
  destruct (earliest descriptor_opening t) as [i|] eqn:E.
  - destruct (String.eqb_spec (PyStr.strip (PyStr.take i t)) "") as [S0|S0].
    + (* the text before the descriptor is blank: the fallback starts
         with the descriptor, and falls back again *)
      assert (N : normalize_title (VStr t) = PyStr.strip t).
      { unfold normalize_title. rewrite E, S0. reflexivity. }
      rewrite N. apply strip_empty in S0.
      destruct (earliest_drop _ _ _ E) as (c & rest & Hd & Pc).
      assert (Hs : exists r, PyStr.strip t = String c r).
      { unfold PyStr.strip. rewrite (lstrip_drop i t S0), Hd.
        rewrite (lstrip_nonspace c rest (descriptor_not_space c Pc)).
        apply rstrip_cons_nonspace, descriptor_not_space, Pc. }
      destruct Hs as [r Hs].
      unfold normalize_title. rewrite Hs. cbn [earliest]. rewrite Pc.
      change (PyStr.take 0 (String c r)) with "".
      change (PyStr.strip "") with "". cbn [String.eqb].
      rewrite <- Hs. apply strip_idem.
    + (* the trimmed prefix holds no descriptor and is kept *)
      assert (N : normalize_title (VStr t) = PyStr.strip (PyStr.take i t)).
      { unfold normalize_title. rewrite E.
        apply String.eqb_neq in S0. now rewrite S0. }
      rewrite N. unfold normalize_title.
      rewrite (earliest_strip_none _ _ (earliest_take _ _ _ E)).
      now rewrite strip_idem, if_same.
  - assert (N : normalize_title (VStr t) = PyStr.strip t).
    { unfold normalize_title. rewrite E. apply if_same. }
    rewrite N. unfold normalize_title.
    rewrite (earliest_strip_none _ _ E).
    now rewrite strip_idem, if_same.
Qed.

(** X2. [clean_track_title] is idempotent: cleaning a cleaned title
    returns it unchanged, also when the first cleaning fell back to the
    whole trimmed title. *)
Theorem clean_track_title_idempotent title :
  clean_track_title (VStr (clean_track_title title)) = clean_track_title title.
Proof.
  destruct title as [t| | |n]; try reflexivity.
  rewrite !clean_track_title_refines. apply normalize_title_fixed.
Qed.

Lemma normalize_title_trimmed t :
  PyStr.strip (normalize_title (VStr t)) = normalize_title (VStr t).
Proof.
  unfold normalize_title.
  destruct (String.eqb _ ""); apply strip_idem.
Qed.

(** What [clean_track_title] keeps of a title when a descriptor follows
    visible text: no descriptor character is left in it. *)
Lemma normalize_title_no_descriptor t i :
  earliest descriptor_opening t = Some i ->
  all_space (PyStr.take i t) = false ->
  earliest descriptor_opening (normalize_title (VStr t)) = None.
Proof.
  intros E A. unfold normalize_title. rewrite E.
  destruct (String.eqb_spec (PyStr.strip (PyStr.take i t)) "") as [S0|S0].
  - apply strip_empty in S0. congruence.
  - apply earliest_strip_none, earliest_take, E.
Qed.

(** X3. The title returned by [clean_track_title] has no leading or
    trailing whitespace; and when the first [(] or [-] of the title comes
    after some visible text, the returned title holds neither [(] nor
    [-]. *)
Theorem clean_track_title_trimmed :
  (forall title,
      PyStr.strip (clean_track_title title) = clean_track_title title)
  /\ (forall t i,
         earliest descriptor_opening t = Some i ->
         all_space (PyStr.take i t) = false ->
         earliest descriptor_opening (clean_track_title (VStr t)) = None).
Proof.
  split.
  - intros [t| | |n]; try reflexivity.
    rewrite clean_track_title_refines. apply normalize_title_trimmed.
  - intros t i E A. rewrite clean_track_title_refines.
    now apply (normalize_title_no_descriptor t i).
Qed.

Lemma clean_track_title_trimmed_witness :
  earliest descriptor_opening (clean_track_title (VStr " Song (Live) - 2011 "))
  = None.
Proof.
  apply (proj2 clean_track_title_trimmed " Song (Live) - 2011 " 6);
    reflexivity.
Defined.

(* ===================================================================== *)
(** ** Further properties of the cleaner and of the fetch layer *)
(* ===================================================================== *)

Lemma length_lstrip s : String.length (PyStr.lstrip s) <= String.length s.
Proof.
  induction s as [|c s IH]; cbn; [lia|].
  destruct (PyStr.isspace c); cbn; lia.
Qed.

Lemma length_rstrip s : String.length (PyStr.rstrip s) <= String.length s.
Proof.
  induction s as [|c s IH]; cbn; [lia|].
  destruct (PyStr.rstrip s); [destruct (PyStr.isspace c)|]; cbn in *; lia.
Qed.

Lemma length_strip s : String.length (PyStr.strip s) <= String.length s.
Proof.
  unfold PyStr.strip.
  pose proof (length_rstrip (PyStr.lstrip s)). pose proof (length_lstrip s). lia.
Qed.

(** Substituting the empty string never lengthens the text. *)
Lemma length_sub_from p skip s :
  String.length (Re.sub_from p "" skip s) <= String.length s.
Proof.
  revert skip; induction s as [|c s IH]; intros skip; cbn; [lia|].
  destruct skip as [|k].
  - destruct (Re.match_at p (String c s)) as [[|n]|]; cbn.
    + specialize (IH 0). lia.
    + specialize (IH n). lia.
    + specialize (IH 0). lia.
  - specialize (IH k). lia.
Qed.

Lemma length_remove_banner text track_name :
  String.length (remove_banner text track_name) <= String.length text.
Proof.
  unfold remove_banner.
  destruct (PyStr.index_of _ text); [rewrite length_drop|]; lia.
Qed.

(** X4. The text returned by [clean_lyrics] has no leading or trailing
    whitespace and is never longer than the raw text: cleaning only
    removes characters. *)
Theorem clean_lyrics_shrinks text track_name :
  PyStr.strip (clean_lyrics text track_name) = clean_lyrics text track_name
  /\ String.length (clean_lyrics text track_name) <= String.length text.
Proof.
  rewrite clean_lyrics_unfold. split; [apply strip_idem|].
  unfold remove_section_headers, remove_embed_footer, Re.sub.
  pose proof (length_remove_banner text track_name).
  pose proof (length_sub_from Re.embed_footer 0 (remove_banner text track_name)).
  pose proof (length_sub_from Re.section_header 0
                (Re.sub_from Re.embed_footer "" 0 (remove_banner text track_name))).
  pose proof (length_strip
                (Re.sub_from Re.section_header "" 0
                   (Re.sub_from Re.embed_footer "" 0
                      (remove_banner text track_name)))).
  lia.
Qed.

(** X5. Lyrics returned by [fetch_lyrics] are never the empty string and
    carry no leading or trailing whitespace. *)
Theorem fetch_lyrics_found_text genius title artist tr text :
  fst (fetch_lyrics genius title artist tr) = Ok (Some text) ->
  text <> "" /\ PyStr.strip text = text.
Proof.
  unfold fetch_lyrics. run_monad.
  destruct (PyStr.truthy (clean_track_title title)); cbn [negb];
    [|cbn; discriminate].
  destruct (genius tr _ _) as [|song|e]; cbn; try discriminate.
  destruct (PyStr.truthy (lyrics song)); cbn; [|discriminate].
  intros [= H]. apply or_None_Some in H as [-> Hne].
  split; [exact Hne|].
  rewrite clean_lyrics_unfold. apply strip_idem.
Qed.

Lemma fetch_lyrics_found_text_witness :
  "La la la" <> "" /\ PyStr.strip "La la la" = "La la la".
Proof.
  apply (fetch_lyrics_found_text stub_provider (VStr "Hello (Live)")
           (VStr "A, B") [] "La la la").
  reflexivity.
Defined.

(** What a fetch appends to the trace. *)
Lemma fetch_lyrics_appends genius title artist tr :
  snd (fetch_lyrics genius title artist tr) =
  if blank title then tr
  else (tr ++ [ESearch (clean_track_title title)
                       (or_None (clean_artist_name artist))])%list.
Proof.
  unfold fetch_lyrics. run_monad.
  rewrite clean_track_title_truthy.
  destruct (blank title); cbn [negb]; [reflexivity|].
  destruct (genius tr _ _) as [|song|e]; cbn; try reflexivity.
  now destruct (PyStr.truthy (lyrics song)).
Qed.

(** X6. [fetch_lyrics] searches the provider at most once and does
    nothing else that shows in the trace: it appends nothing when the
    title is not a string or is blank, and otherwise exactly one search,
    with the cleaned title and with the cleaned artist, or with no artist
    when the cleaned artist is empty (an artist that is not a string
    included). *)
Theorem fetch_lyrics_query genius title artist tr :
  snd (fetch_lyrics genius title artist tr)
  = (if blank title then tr
     else (tr ++ [ESearch (clean_track_title title)
                          (or_None (clean_artist_name artist))])%list)
  /\ (clean_artist_name artist = "" ->
      or_None (clean_artist_name artist) = None)
  /\ ((forall a, artist <> VStr a) ->
      or_None (clean_artist_name artist) = None).
Proof.
  split; [apply fetch_lyrics_appends|]. split.
  - intros ->. reflexivity.
  - intros Ha. destruct artist as [a| | |n]; try reflexivity.
    now destruct (Ha a).
Qed.

(* ===================================================================== *)
(** ** Further properties of the enrichment run *)
(* ===================================================================== *)

(** The loop always completes: one fetched value and one sleep per row,
    and one search per row with a usable title. *)
Lemma enrich_rows_total random genius cols track_col artist_col todo :
  forall lyrics_list tr,
  exists fetched produced,
    enrich_rows random genius cols track_col artist_col todo lyrics_list tr
    = (Ok (lyrics_list ++ fetched)%list, (tr ++ produced)%list)
    /\ length fetched = length todo
    /\ count is_sleep produced = length todo
    /\ count is_search produced
       = length (searchable_rows cols track_col todo).
Proof.
  induction todo as [|row todo IH]; intros lyrics_list tr.
  - exists [], []. cbn. rewrite !app_nil_r. auto.
  - cbn [enrich_rows].
    pose proof (fetch_lyrics_appends genius (row_get cols row track_col)
                  (row_get cols row artist_col) tr) as Hq.
    destruct (fetch_lyrics_events genius (row_get cols row track_col)
                (row_get cols row artist_col) tr) as (r & evs & Hf & Hsl & _).
    rewrite Hf in Hq. cbn [snd] in Hq.
    set (d := (MIN_DELAY + (MAX_DELAY - MIN_DELAY) * random (tr ++ evs)%list)%Q).
    destruct (IH (lyrics_list ++ [r])%list (tr ++ evs ++ [ESleep d])%list)
      as (fetched & produced & Hrun & Hlen & Hsleeps & Hsearches).
    exists (r :: fetched), (evs ++ ESleep d :: produced)%list.
    split; [|split; [|split]].
    + unfold bind at 1. rewrite Hf.
      unfold bind, random_uniform, sleep, emit. fold d.
      rewrite <- app_assoc. rewrite Hrun.
      f_equal; rewrite <- !app_assoc; reflexivity.
    + cbn. now rewrite Hlen.
    + rewrite count_app, Hsl. cbn. unfold count in Hsleeps. now rewrite Hsleeps.
    + rewrite count_app. unfold searchable_rows. cbn [filter].
      fold (searchable_rows cols track_col todo).
      change (count is_search (ESleep d :: produced))
        with (count is_search produced).
      rewrite Hsearches.
      destruct (blank (row_get cols row track_col)); cbn [negb].
      * assert (evs = [])
          by (apply (app_inv_head tr); rewrite app_nil_r; exact Hq).
        subst evs. reflexivity.
      * apply app_inv_head in Hq. subst evs. reflexivity.
Qed.

Lemma main_io_agrees connect random env tr :
  main connect random env tr
  = main_io connect random env None (fun _ => None) tr.
Proof.
  unfold main, main_io. destruct (input_file env) as [df|]; [|reflexivity].
  destruct (length (columns df) <? 2)%nat; [reflexivity|].
  unfold bind. destruct (authenticate_genius connect env tr) as [[g|e] tr1];
    [|reflexivity].
  destruct (enrich_rows _ _ _ _ _ _ _ _) as [[l|e] tr2]; [|reflexivity].
  now destruct (set_column _ _ _ _) as [[out|e] tr3].
Qed.

(** X7. With the outcomes of reading and writing the spreadsheets made
    explicit, [main] raises in these cases only, in this order:
    [FileNotFoundError] when the input file is missing, else the
    exception of [pd.read_excel] when reading fails, else [ValueError]
    when the table has fewer than two columns, else [EnvironmentError]
    when the token is missing or empty, each time before any search or
    sleep.  Past these checks the loop runs over every row, one sleep per
    row, whatever the provider answers or raises, and the run then fails
    only with the exception of [to_excel], if writing fails; otherwise it
    returns the table, with as many rows as it read.  [main] is the case
    where neither reading nor writing fails. *)
Theorem main_outcome connect random env read_error write_error tr :
  match input_file env with
  | None =>
      main_io connect random env read_error write_error tr
      = (Raised FileNotFoundError, tr)
  | Some df =>
      match read_error with
      | Some e =>
          main_io connect random env read_error write_error tr
          = (Raised e, tr)
      | None =>
          if (length (columns df) <? 2)%nat
          then main_io connect random env read_error write_error tr
               = (Raised ValueError, tr)
          else if PyStr.truthy (match GENIUS_ACCESS_TOKEN env with
                                | Some token => token
                                | None => ""
                                end)
          then exists out produced,
              main_io connect random env read_error write_error tr
              = (match write_error out with
                 | Some e => Raised e
                 | None => Ok out
                 end, (tr ++ produced)%list)
              /\ length (rows out) = length (rows df)
              /\ count is_sleep produced = length (rows df)
          else main_io connect random env read_error write_error tr
               = (Raised EnvironmentError, tr)
      end
  end
  /\ main connect random env tr
     = main_io connect random env None (fun _ => None) tr.
Proof.
  split; [|apply main_io_agrees].
  unfold main_io. destruct (input_file env) as [df|]; [|reflexivity].
  destruct read_error as [e|]; [reflexivity|].
  destruct (length (columns df) <? 2)%nat; [reflexivity|].
  unfold authenticate_genius.
  destruct (GENIUS_ACCESS_TOKEN env) as [token|]; [|reflexivity].
  destruct (PyStr.truthy token); cbn [negb]; [|reflexivity].
  unfold bind at 1. unfold ret at 1.
  destruct (enrich_rows_total random (connect token) (columns df)
              (if has_column df "track_name" then "track_name"
               else nth 0 (columns df) "")
              (if has_column df "artist_names" then "artist_names"
               else nth 1 (columns df) "")
              (rows df) [] tr)
    as (fetched & produced & Hrun & Hlen & Hsleeps & _).
  unfold bind at 1. rewrite Hrun. cbn [app].
  unfold set_column. rewrite length_map, Hlen, Nat.eqb_refl. cbn [negb].
  destruct (has_column df "lyrics"); unfold bind, ret, raise; cbn beta iota;
    match goal with
    | |- context [write_error ?o] => exists o, produced
    end;
    (split; [now destruct (write_error _)|]);
    (split; [|exact Hsleeps]);
    cbn [rows]; rewrite length_map, length_combine, length_map; lia.
Qed.

Section StartedRun.

Variable connect : string -> Genius.
Variable random : trace -> Q.
Variables (env : environment) (df : DataFrame) (token : string).
Hypothesis file_present : input_file env = Some df.
Hypothesis two_columns : 2 <= length (columns df).
Hypothesis token_present : GENIUS_ACCESS_TOKEN env = Some token.
Hypothesis token_not_empty : token <> "".

Lemma main_started tr :
  exists fetched produced,
    main connect random env tr
    = set_column df "lyrics" (map lyrics_value fetched) (tr ++ produced)%list
    /\ length fetched = length (rows df)
    /\ count is_sleep produced = length (rows df)
    /\ count is_search produced
       = length (searchable_rows (columns df) (track_column df) (rows df)).
Proof.
  destruct (enrich_rows_total random (connect token) (columns df)
              (track_column df) (artist_column df) (rows df) [] tr)
    as (fetched & produced & Hrun & Hlen & Hsl & Hse).
  exists fetched, produced. split; [|auto].
  unfold main. rewrite file_present.
  destruct (Nat.ltb_spec (length (columns df)) 2); [lia|].
  unfold authenticate_genius. rewrite token_present.
  apply PyStrFacts.truthy_true in token_not_empty.
  rewrite token_not_empty. cbn [negb].
  unfold bind at 1. unfold ret at 1.
  fold (track_column df). fold (artist_column df).
  unfold bind. now rewrite Hrun.
Qed.

End StartedRun.

(** X8. A run of [main] past its start-up checks keeps the columns of the
    input in number and order when one of them is [lyrics] (the column is
    overwritten in place), and otherwise appends [lyrics] as the last
    column. *)
Theorem main_lyrics_column connect random env df token tr :
  input_file env = Some df ->
  2 <= length (columns df) ->
  GENIUS_ACCESS_TOKEN env = Some token ->
  token <> "" ->
  exists out,
    fst (main connect random env tr) = Ok out
    /\ columns out =
       if has_column df "lyrics" then columns df
       else (columns df ++ ["lyrics"])%list.
Proof.
  intros Hfile Hcols Htok Hne.
  destruct (main_started connect random env df token Hfile Hcols Htok Hne tr)
    as (fetched & produced & Hmain & Hlen & _ & _).
  rewrite Hmain. unfold set_column.
  rewrite length_map, Hlen, Nat.eqb_refl. cbn [negb].
  destruct (has_column df "lyrics"); unfold ret; cbn; eauto.
Qed.

Lemma main_lyrics_column_witness :
  exists out,
    fst (main (fun _ => stub_provider) midpoint enriched_env []) = Ok out
    /\ columns out =
       if has_column enriched_table "lyrics" then columns enriched_table
       else (columns enriched_table ++ ["lyrics"])%list.
Proof.
  apply (main_lyrics_column (fun _ => stub_provider) midpoint enriched_env
           enriched_table "token" []).
  - reflexivity.
  - cbn; lia.
  - reflexivity.
  - discriminate.
Defined.

Lemma run_events_cons cols tc ac row rows d delays :
  run_events cols tc ac (row :: rows) (d :: delays)
  = (row_events cols tc ac row d ++ run_events cols tc ac rows delays)%list.
Proof. reflexivity. Qed.

(** The loop appends, row by row, the events of each row. *)
Lemma enrich_rows_events random genius cols track_col artist_col todo :
  forall lyrics_list tr,
  exists fetched delays,
    enrich_rows random genius cols track_col artist_col todo lyrics_list tr
    = (Ok (lyrics_list ++ fetched)%list,
       (tr ++ run_events cols track_col artist_col todo delays)%list)
    /\ length fetched = length todo
    /\ length delays = length todo.
Proof.
  induction todo as [|row todo IH]; intros lyrics_list tr.
  - exists [], []. cbn. rewrite !app_nil_r. auto.
  - cbn [enrich_rows].
    pose proof (fetch_lyrics_appends genius (row_get cols row track_col)
                  (row_get cols row artist_col) tr) as Hq.
    destruct (fetch_lyrics_events genius (row_get cols row track_col)
                (row_get cols row artist_col) tr) as (r & evs & Hf & _ & _).
    rewrite Hf in Hq. cbn [snd] in Hq.
    set (d := (MIN_DELAY + (MAX_DELAY - MIN_DELAY) * random (tr ++ evs)%list)%Q).
    destruct (IH (lyrics_list ++ [r])%list (tr ++ evs ++ [ESleep d])%list)
      as (fetched & delays & Hrun & Hlen & Hdel).
    exists (r :: fetched), (d :: delays).
    split; [|cbn; split; congruence].
    unfold bind at 1. rewrite Hf.
    unfold bind, random_uniform, sleep, emit. fold d.
    rewrite <- app_assoc. rewrite Hrun.
    assert (Hevs : (evs ++ [ESleep d])%list
                   = row_events cols track_col artist_col row d).
    { unfold row_events, row_search. f_equal.
      destruct (blank (row_get cols row track_col)).
      - apply (app_inv_head tr). now rewrite app_nil_r.
      - now apply app_inv_head in Hq. }
    rewrite run_events_cons, <- Hevs.
    f_equal; rewrite <- !app_assoc; reflexivity.
Qed.

Lemma run_events_searches cols tc ac rows :
  forall delays,
    length delays = length rows ->
    filter is_search (run_events cols tc ac rows delays)
    = map (row_search cols tc ac) (searchable_rows cols tc rows).
Proof.
  induction rows as [|row rows IH]; intros [|d delays] H;
    try discriminate; [reflexivity|].
  rewrite run_events_cons, filter_app, IH by (cbn in H; lia).
  unfold searchable_rows, row_events. cbn [filter].
  destruct (blank (row_get cols row tc)); reflexivity.
Qed.

(** X9. In a run of [main] past its start-up checks, what the run
    appends to the trace is, row by row in input order, the one search
    for that row when its title cell is a non-blank string and nothing
    when it is not, followed by that row's sleep: every such row is
    searched exactly once, with its own cleaned title and artist, before
    the next row is touched; the other rows are never searched; and no
    row is searched again later. *)
Theorem main_searches_once_per_row connect random env df token tr :
  input_file env = Some df ->
  2 <= length (columns df) ->
  GENIUS_ACCESS_TOKEN env = Some token ->
  token <> "" ->
  exists delays,
    length delays = length (rows df)
    /\ snd (main connect random env tr)
       = (tr ++ run_events (columns df) (track_column df) (artist_column df)
                           (rows df) delays)%list
    /\ filter is_search
         (run_events (columns df) (track_column df) (artist_column df)
                     (rows df) delays)
       = map (row_search (columns df) (track_column df) (artist_column df))
             (searchable_rows (columns df) (track_column df) (rows df)).
Proof.
  intros Hfile Hcols Htok Hne.
  destruct (enrich_rows_events random (connect token) (columns df)
              (track_column df) (artist_column df) (rows df) [] tr)
    as (fetched & delays & Hrun & Hlen & Hdel).
  exists delays. split; [exact Hdel|]. split.
  - unfold main. rewrite Hfile.
    destruct (Nat.ltb_spec (length (columns df)) 2); [lia|].
    unfold authenticate_genius. rewrite Htok.
    apply PyStrFacts.truthy_true in Hne. rewrite Hne. cbn [negb].
    unfold bind at 1. unfold ret at 1.
    fold (track_column df). fold (artist_column df).
    unfold bind. rewrite Hrun. cbn [app].
    unfold set_column. rewrite length_map, Hlen, Nat.eqb_refl. cbn [negb].
    now destruct (has_column df "lyrics").
  - now apply run_events_searches.
Qed.

Lemma main_searches_once_per_row_witness :
  exists delays,
    length delays = length (rows example_table)
    /\ snd (main (fun _ => stub_provider) midpoint example_env [])
       = ([] ++ run_events (columns example_table)
                           (track_column example_table)
                           (artist_column example_table)
                           (rows example_table) delays)%list
    /\ filter is_search
         (run_events (columns example_table) (track_column example_table)
                     (artist_column example_table)
                     (rows example_table) delays)
       = map (row_search (columns example_table) (track_column example_table)
                         (artist_column example_table))
             (searchable_rows (columns example_table)
                              (track_column example_table)
                              (rows example_table)).
Proof.
  apply (main_searches_once_per_row (fun _ => stub_provider) midpoint
           example_env example_table "token" []).
  - reflexivity.
  - cbn; lia.
  - reflexivity.
  - discriminate.
Defined.

(* ===================================================================== *)
(** ** Further properties of the artist normaliser *)
(* ===================================================================== *)

Section Words.
Import PyStr.

Lemma split_ws_words s : Forall word (split_ws s).
Proof.
  induction s as [|c s IH]; [constructor|].
  cbn [split_ws]. destruct (isspace c) eqn:Hc; [exact IH|].
  assert (Hw : word (String c "")).
  { split; [discriminate|]. cbn. unfold visible. now rewrite Hc. }
  destruct s as [|c' s']; [constructor; [exact Hw | constructor]|].
  destruct (isspace c'); [constructor; [exact Hw | exact IH]|].
  destruct (split_ws (String c' s')) as [|w ws];
    [constructor; [exact Hw | constructor]|].
  inversion IH as [|? ? [Hne Hall] Hws]; subst.
  constructor; [|exact Hws].
  split; [discriminate|]. cbn. unfold visible at 1. now rewrite Hc.
Qed.

Lemma single_from_visible b w rest :
  all_chars visible w = true -> w <> "" ->
  single_spaced_from b (w ++ rest) = single_spaced_from false rest.
Proof.
  revert b; induction w as [|c w IH]; intros b Hall Hne; [congruence|].
  cbn [all_chars] in Hall. apply andb_prop in Hall as [Hc Hw].
  unfold visible in Hc. apply negb_true_iff in Hc.
  cbn [append single_spaced_from]. rewrite Hc.
  destruct w as [|d w]; [reflexivity|].
  apply IH; [exact Hw | discriminate].
Qed.

Lemma join_cons2 sep w w' ws :
  join sep (w :: w' :: ws) = w ++ sep ++ join sep (w' :: ws).
Proof. reflexivity. Qed.

Lemma join_single_spaced ws :
  Forall word ws -> ws <> [] -> single_spaced_from true (join " " ws) = true.
Proof.
  induction ws as [|w ws IH]; [congruence|].
  intros H _. inversion H as [|? ? [Hne Hall] Hws]; subst.
  destruct ws as [|w' ws].
  - cbn [join String.concat].
    rewrite <- (PyStrFacts.app_empty_r w).
    now rewrite single_from_visible.
  - rewrite join_cons2, single_from_visible by assumption.
    cbn [append single_spaced_from]. cbn [isspace]. 
    change (isspace " ") with true. cbn [negb andb].
    rewrite Ascii.eqb_refl. apply IH; [exact Hws | discriminate].
Qed.

Lemma rstrip_single b s : single_spaced_from b s = true -> rstrip s = s.
Proof.
  revert b; induction s as [|c s IH]; intros b H; [reflexivity|].
  cbn [single_spaced_from] in H. cbn [rstrip].
  destruct (isspace c) eqn:Hc.
  - apply andb_prop in H as [_ H].
    rewrite (IH true H). destruct s; [discriminate | reflexivity].
  - rewrite (IH false H). now destruct s.
Qed.

(** A single-spaced text is its own trimmed form. *)
Lemma strip_single s : single_spaced s = true -> strip s = s.
Proof.
  destruct s as [|c s]; [reflexivity|]. cbn [single_spaced]. intros H.
  unfold strip.
  assert (Hc : isspace c = false).
  { cbn in H. destruct (isspace c); [discriminate | reflexivity]. }
  rewrite (lstrip_nonspace c s Hc). now apply (rstrip_single true).
Qed.

Lemma join_words_single ws : Forall word ws -> single_spaced (join " " ws) = true.
Proof.
  intros H. destruct ws as [|w ws]; [reflexivity|].
  pose proof (join_single_spaced (w :: ws) H) as J.
  specialize (J ltac:(discriminate)).
  unfold single_spaced. destruct (join " " (w :: ws)); auto.
Qed.

(** *** Occurrences *)

Lemma app_eq_app a b c d :
  a ++ b = c ++ d ->
  (exists e, a = c ++ e /\ d = e ++ b) \/ (exists e, c = a ++ e /\ b = e ++ d).
Proof.
  revert c; induction a as [|x a IH]; intros c H.
  - right. exists c. auto.
  - destruct c as [|y c].
    + left. exists (String x a). auto.
    + cbn in H. injection H as -> H.
      destruct (IH c H) as [(e & -> & ->)|(e & -> & ->)];
        [left | right]; exists e; auto.
Qed.

Lemma contains_occurs sub s : contains sub s = true <-> occurs sub s.
Proof.
  unfold contains, occurs. split.
  - destruct (index_of sub s) as [i|] eqn:E; [|discriminate]. intros _.
    pose proof (PyStrFacts.index_of_drop _ _ _ E) as Hp.
    apply PyStrFacts.prefix_split in Hp.
    exists (take i s), (drop (String.length sub) (drop i s)).
    now rewrite <- Hp, PyStrFacts.take_drop.
  - intros (a & b & ->).
    destruct (PyStrFacts.index_of_le sub (a ++ sub ++ b) (String.length a))
      as (i & Hi & _).
    + rewrite PyStrFacts.drop_app. apply PyStrFacts.prefix_app.
    + rewrite PyStrFacts.length_app. lia.
    + now rewrite Hi.
Qed.

Lemma occurs_trans a b c : occurs a b -> occurs b c -> occurs a c.
Proof.
  intros (x & y & ->) (u & v & ->).
  exists (u ++ x), (y ++ v). now rewrite !PyStrFacts.app_assoc.
Qed.

Lemma all_chars_app P a b :
  all_chars P (a ++ b) = all_chars P a && all_chars P b.
Proof.
  induction a as [|c a IH]; cbn; [reflexivity|].
  now rewrite IH, andb_assoc.
Qed.

(** A text without whitespace cannot lie across a space. *)
Lemma occurs_across_space sep x y :
  sep <> "" -> all_chars visible sep = true ->
  occurs sep (x ++ " " ++ y) -> occurs sep x \/ occurs sep y.
Proof.
  intros Hne Hvis (a & b & H).
  apply app_eq_app in H as [(e & -> & H)|(e & -> & H)].
  - symmetry in H. apply app_eq_app in H as [(e' & -> & H)|(e' & -> & H)].
    + left. exists a, e'. reflexivity.
    + destruct e' as [|c e'].
      * left. exists a, "". rewrite PyStrFacts.app_empty_r in *.
        now rewrite PyStrFacts.app_empty_r.
      * exfalso. cbn in H. injection H as <- _.
        rewrite all_chars_app in Hvis. apply andb_prop in Hvis as [_ Hvis].
        cbn in Hvis. discriminate.
  - destruct e as [|c e].
    + exfalso. cbn in H. destruct sep as [|c sep]; [congruence|].
      cbn in H. injection H as <- _. cbn in Hvis. discriminate.
    + right. cbn in H. injection H as _ ->. exists e, b. reflexivity.
Qed.

Lemma occurs_join sep ws :
  sep <> "" -> all_chars visible sep = true ->
  occurs sep (join " " ws) -> exists w, In w ws /\ occurs sep w.
Proof.
  intros Hne Hvis. induction ws as [|w ws IH].
  - intros (a & b & H). exfalso. cbn in H.
    destruct a; [|discriminate]. destruct sep; [congruence | discriminate].
  - destruct ws as [|w' ws].
    + intros H. exists w. split; [now left | exact H].
    + rewrite join_cons2. intros H.
      apply occurs_across_space in H as [H|H]; auto.
      * exists w. split; [now left | exact H].
      * destruct (IH H) as (u & Hin & Hu). exists u. split; [now right | exact Hu].
Qed.

(** The words of a text occur in it, the first one at its start when the
    text starts with a visible character. *)
Lemma split_ws_occurs s :
  (forall w, In w (split_ws s) -> occurs w s)
  /\ (forall c s', s = String c s' -> isspace c = false ->
        exists w ws b, split_ws s = w :: ws /\ s = w ++ b).
Proof.
  induction s as [|c s [IHin IHhead]].
  - split; [intros w [] | discriminate].
  - assert (Hpre : forall w, occurs w s -> occurs w (String c s)).
    { intros w (a & b & ->). exists (String c a), b. reflexivity. }
    assert (Hone : occurs (String c "") (String c s))
      by (exists "", s; reflexivity).
    split.
    + intros w. cbn [split_ws]. destruct (isspace c); [auto|].
      destruct s as [|c' s']; [intros [<-|[]]; exact Hone|].
      destruct (isspace c') eqn:Hc'.
      * intros [<-|Hin]; auto.
      * destruct (IHhead c' s' eq_refl Hc') as (w1 & ws & b & Hs & Hb).
        rewrite Hs. intros [<-|Hin].
        -- exists "", b. cbn. now rewrite <- Hb.
        -- apply Hpre, IHin. rewrite Hs. now right.
    + intros c0 s0 [= <- <-] Hc. cbn [split_ws]. rewrite Hc.
      destruct s as [|c' s']; [exists (String c ""), [], ""; auto|].
      destruct (isspace c') eqn:Hc'.
      * exists (String c ""), (split_ws (String c' s')), (String c' s'). auto.
      * destruct (IHhead c' s' eq_refl Hc') as (w1 & ws & b & Hs & Hb).
        rewrite Hs. exists (String c w1), ws, b. split; [reflexivity|].
        cbn. now rewrite <- Hb.
Qed.

Lemma split_ws_cons2 c c2 s :
  isspace c = false -> isspace c2 = false ->
  split_ws (String c (String c2 s)) =
  match split_ws (String c2 s) with
  | w :: ws => String c w :: ws
  | [] => [String c ""]
  end.
Proof.
  intros Hc Hc2.
  change (split_ws (String c (String c2 s)))
    with (if isspace c then split_ws (String c2 s)
          else if isspace c2 then String c "" :: split_ws (String c2 s)
               else match split_ws (String c2 s) with
                    | w :: ws => String c w :: ws
                    | [] => [String c ""]
                    end).
  now rewrite Hc, Hc2.
Qed.

Lemma split_ws_word_app w rest :
  word w ->
  match rest with
  | EmptyString => True
  | String d _ => isspace d = true
  end ->
  split_ws (w ++ rest) = w :: split_ws rest.
Proof.
  intros [Hne Hall] Hrest. induction w as [|c w IH]; [congruence|].
  cbn [all_chars] in Hall. apply andb_prop in Hall as [Hc Hw].
  unfold visible in Hc. apply negb_true_iff in Hc.
  destruct w as [|c2 w].
  - cbn [append split_ws]. rewrite Hc.
    destruct rest as [|d r]; [reflexivity|]. now rewrite Hrest.
  - assert (Hc2 : isspace c2 = false).
    { cbn in Hw. apply andb_prop in Hw as [Hc2 _].
      unfold visible in Hc2. now apply negb_true_iff in Hc2. }
    change (String c (String c2 w) ++ rest)
      with (String c (String c2 (w ++ rest))).
    rewrite split_ws_cons2 by assumption.
    change (String c2 (w ++ rest)) with (String c2 w ++ rest).
    rewrite IH by (discriminate || assumption). reflexivity.
Qed.

(** Splitting the joined words gives the words back. *)
Lemma split_ws_join ws : Forall word ws -> split_ws (join " " ws) = ws.
Proof.
  induction ws as [|w ws IH]; [reflexivity|].
  intros H. inversion H as [|? ? Hw Hws]; subst.
  destruct ws as [|w' ws].
  - cbn [join String.concat]. rewrite <- (PyStrFacts.app_empty_r w) at 1.
    now rewrite split_ws_word_app.
  - rewrite join_cons2, split_ws_word_app by (auto; reflexivity).
    cbn [append split_ws]. change (isspace " ") with true. cbv iota.
    now rewrite IH.
Qed.

End Words.

(** None of the separators occurs in what the loop of
    [clean_artist_name] leaves. *)
Lemma primary_credit_clean artist sep :
  In sep artist_separators ->
  PyStr.contains sep (primary_credit artist) = false.
Proof.
  unfold primary_credit.
  set (p1 := PyStr.split_head artist ",").
  set (p2 := PyStr.split_head p1 "&").
  set (p3 := PyStr.split_head p2 "feat.").
  set (p4 := PyStr.split_head p3 "ft.").
  destruct (PyStrFacts.split_head_prefix p1 "&") as [r2 H2].
  destruct (PyStrFacts.split_head_prefix p2 "feat.") as [r3 H3].
  destruct (PyStrFacts.split_head_prefix p3 "ft.") as [r4 H4].
  fold p2 in H2. fold p3 in H3. fold p4 in H4.
  intros [<-|[<-|[<-|[<-|[]]]]].
  - apply (PyStrFacts.contains_prefix_false _ _ (r4 ++ r3 ++ r2)).
    rewrite <- !PyStrFacts.app_assoc, <- H4, <- H3, <- H2.
    apply PyStrFacts.split_head_clean; discriminate.
  - apply (PyStrFacts.contains_prefix_false _ _ (r4 ++ r3)).
    rewrite <- !PyStrFacts.app_assoc, <- H4, <- H3.
    apply PyStrFacts.split_head_clean; discriminate.
  - apply (PyStrFacts.contains_prefix_false _ _ r4). rewrite <- H4.
    apply PyStrFacts.split_head_clean; discriminate.
  - apply PyStrFacts.split_head_clean; discriminate.
Qed.

(** The cleaned artist is the words of the primary credit joined by
    single spaces; the final [strip] has nothing left to remove. *)
Lemma clean_artist_name_joined artist :
  clean_artist_name (VStr artist)
  = PyStr.join " " (PyStr.split_ws (primary_credit artist)).
Proof.
  rewrite clean_artist_name_unfold.
  apply strip_single, join_words_single, split_ws_words.
Qed.

Lemma separator_visible sep :
  In sep artist_separators -> sep <> "" /\ all_chars visible sep = true.
Proof.
  intros [<-|[<-|[<-|[<-|[]]]]]; split; (discriminate || reflexivity).
Qed.

Lemma clean_artist_name_free artist sep :
  In sep artist_separators ->
  PyStr.contains sep (clean_artist_name artist) = false.
Proof.
  intros Hsep.
  destruct artist as [a| | |n];
    try (destruct Hsep as [<-|[<-|[<-|[<-|[]]]]]; reflexivity).
  destruct (PyStr.contains sep (clean_artist_name (VStr a))) eqn:E; auto.
  exfalso. apply contains_occurs in E.
  rewrite clean_artist_name_joined in E.
  destruct (separator_visible sep Hsep) as [Hne Hvis].
  apply occurs_join in E as (w & Hin & Hw); auto.
  apply (proj1 (split_ws_occurs (primary_credit a))) in Hin.
  pose proof (occurs_trans _ _ _ Hw Hin) as Ho.
  apply contains_occurs in Ho.
  now rewrite primary_credit_clean in Ho.
Qed.

(** X10. The artist returned by [clean_artist_name] has its whitespace
    normalised: it neither starts nor ends with whitespace, and its only
    whitespace characters are single spaces between words. *)
Theorem clean_artist_name_single_spaced artist :
  single_spaced (clean_artist_name artist) = true
  /\ PyStr.strip (clean_artist_name artist) = clean_artist_name artist.
Proof.
  assert (H : single_spaced (clean_artist_name artist) = true).
  { destruct artist as [a| | |n]; try reflexivity.
    rewrite clean_artist_name_joined.
    apply join_words_single, split_ws_words. }
  split; [exact H | now apply strip_single].
Qed.

(** X11. None of the separators [,], [&], [feat.], [ft.] occurs in the
    artist returned by [clean_artist_name], whitespace collapsing
    included. *)
Theorem clean_artist_name_no_separator artist sep :
  In sep artist_separators ->
  PyStr.contains sep (clean_artist_name artist) = false.
Proof. intros Hsep. now apply clean_artist_name_free. Qed.

Lemma clean_artist_name_no_separator_witness :
  PyStr.contains "feat." (clean_artist_name (VStr "A  feat.  B, C & D")) = false.
Proof.
  apply (clean_artist_name_no_separator (VStr "A  feat.  B, C & D") "feat.").
  cbn; tauto.
Defined.

(** X12. [clean_artist_name] is idempotent: cleaning a cleaned artist
    returns it unchanged. *)
Theorem clean_artist_name_idempotent artist :
  clean_artist_name (VStr (clean_artist_name artist))
  = clean_artist_name artist.
Proof.
  destruct artist as [a| | |n]; try reflexivity.
  set (r := clean_artist_name (VStr a)).
  assert (Hp : primary_credit r = r).
  { assert (Hs : forall sep, In sep artist_separators ->
                             PyStr.split_head r sep = r).
    { intros sep Hsep.
      now apply PyStrFacts.split_head_absent, clean_artist_name_free. }
    unfold primary_credit.
    rewrite (Hs ","), (Hs "&"), (Hs "feat."), (Hs "ft.");
      (reflexivity || (cbn; tauto)). }
  rewrite clean_artist_name_joined, Hp.
  unfold r. rewrite clean_artist_name_joined.
  now rewrite split_ws_join by apply split_ws_words.
Qed.

(* ===================================================================== *)
(** ** The scorer's pipeline *)
(* ===================================================================== *)

(** One call of [analyze_emotions]: it returns a dict with the seven
    keys, and calls the classifier once, on the text as given, unless
    there is nothing to score. *)
Lemma analyze_emotions_run classifier text tr :
  exists d,
    analyze_emotions classifier text tr
    = (Ok d, (tr ++ classified [text])%list)
    /\ scores_of text d.
Proof.
  assert (Hnull : scores_of text (fresh_scores None)) by (split; auto).
  unfold classified. cbn [flat_map]. rewrite !app_nil_r.
  destruct text as [t| | |n];
    try (exists (fresh_scores None); rewrite app_nil_r; split;
         [reflexivity | exact Hnull]).
  unfold analyze_emotions.
  destruct (all_space t) eqn:A.
  - apply strip_empty in A. rewrite A. cbn [PyStr.truthy negb].
    exists (fresh_scores None). rewrite app_nil_r. split; [reflexivity | exact Hnull].
  - assert (T : PyStr.truthy (PyStr.strip t) = true).
    { apply PyStrFacts.truthy_true. intros H. apply strip_empty in H. congruence. }
    rewrite T. cbn [negb].
    unfold try_except, bind, call_classifier.
    destruct (classifier tr t) as [rs|e].
    + pose proof (record_scores_run rs (fresh_scores (Some 0%Q))
                    (tr ++ [EClassify t])%list eq_refl) as Hrun.
      destruct (forallb readable rs).
      * destruct Hrun as (d & Hrun & Hd & _). rewrite Hrun.
        exists d. split; [reflexivity|]. split; [exact Hd|].
        cbn. rewrite A. discriminate.
      * rewrite Hrun. exists (fresh_scores None).
        split; [reflexivity|]. split; [reflexivity|]. reflexivity.
    + exists (fresh_scores None).
      split; [reflexivity|]. split; reflexivity.
Qed.

Lemma classified_cons v series :
  classified (v :: series) = (classified [v] ++ classified series)%list.
Proof. unfold classified. cbn [flat_map]. now rewrite app_nil_r. Qed.

Lemma apply_run classifier series :
  forall tr,
  exists dicts,
    Scorer.apply (analyze_emotions classifier) series tr
    = (Ok dicts, (tr ++ classified series)%list)
    /\ Forall2 scores_of series dicts.
Proof.
  induction series as [|v series IH]; intros tr.
  - exists []. cbn. rewrite app_nil_r. split; [reflexivity | constructor].
  - destruct (analyze_emotions_run classifier v tr) as (d & Hd & Hs).
    destruct (IH (tr ++ classified [v])%list) as (dicts & Hrun & Hall).
    exists (d :: dicts). split; [|now constructor].
    cbn [Scorer.apply]. unfold bind at 1. rewrite Hd.
    unfold bind at 1. rewrite Hrun. unfold ret.
    now rewrite (classified_cons v series), app_assoc.
Qed.

(** *** The frame built from the dicts *)







Lemma Forall2_length_eq {A B} (R : A -> B -> Prop) l l' :
  Forall2 R l l' -> length l = length l'.
Proof. induction 1; cbn; auto. Qed.

Lemma scorer_main_io_agrees pipeline disk tr :
  Scorer.main pipeline disk tr
  = ScorerIO.main pipeline disk None (fun _ => None) tr.
Proof.
  unfold Scorer.main, ScorerIO.main, Scorer.load_data, ScorerIO.load_data.
  destruct pipeline as [classifier|e]; [|reflexivity].
  destruct (disk Scorer.INPUT_FILE) as [df|]; [|reflexivity].
  unfold bind, ret, raise. cbn beta iota.
  destruct (has_column df "lyrics"); cbn [negb]; [|reflexivity].
  now destruct (Scorer.apply _ _ _) as [[dicts|e] tr'].
Qed.

(** X13. With the outcomes of reading and writing the tables made
    explicit, the scorer's [main] raises in these cases only, in this
    order: the model loader's exception when the model does not load,
    else [FileNotFoundError] when the input file is missing, else the
    exception of [pd.read_csv] when reading fails, else [ValueError] when
    the table has no [lyrics] column, each time before any classifier
    call.  Past these checks every row is scored, whatever the classifier
    returns or raises on any row, and the run then fails only with the
    exception of [to_csv], if writing fails; otherwise it returns the
    table, with one row per input row.  [Scorer.main] is the case where
    neither reading nor writing fails. *)
Theorem scorer_main_outcome pipeline disk read_error write_error tr :
  match pipeline with
  | Raised e =>
      ScorerIO.main pipeline disk read_error write_error tr = (Raised e, tr)
  | Ok classifier =>
      match disk Scorer.INPUT_FILE with
      | None =>
          ScorerIO.main pipeline disk read_error write_error tr
          = (Raised FileNotFoundError, tr)
      | Some df =>
          match read_error with
          | Some e =>
              ScorerIO.main pipeline disk read_error write_error tr
              = (Raised e, tr)
          | None =>
              if has_column df "lyrics"
              then exists out,
                  ScorerIO.main pipeline disk read_error write_error tr
                  = (match write_error out with
                     | Some e => Raised e
                     | None => Ok out
                     end,
                     (tr ++ classified
                              (map (fun row => row_get (columns df) row "lyrics")
                                   (rows df)))%list)
                  /\ length (Scorer.scored_rows out) = length (rows df)
              else ScorerIO.main pipeline disk read_error write_error tr
                   = (Raised ValueError, tr)
          end
      end
  end
  /\ Scorer.main pipeline disk tr
     = ScorerIO.main pipeline disk None (fun _ => None) tr.
Proof.
  split; [|apply scorer_main_io_agrees].
  unfold ScorerIO.main, ScorerIO.load_data.
  destruct pipeline as [classifier|e]; [|reflexivity].
  destruct (disk Scorer.INPUT_FILE) as [df|]; [|reflexivity].
  destruct read_error as [e|]; [reflexivity|].
  unfold bind, ret, raise. cbn beta iota.
  destruct (has_column df "lyrics"); cbn [negb]; [|reflexivity].
  destruct (apply_run classifier
              (map (fun row => row_get (columns df) row "lyrics") (rows df)) tr)
    as (dicts & Hrun & Hall).
  rewrite Hrun.
  match goal with
  | |- context [write_error ?o] => exists o
  end.
  split; [now destruct (write_error _)|].
  cbn. apply Forall2_length_eq in Hall. rewrite length_map in Hall.
  rewrite length_map, length_combine, length_map. lia.
Qed.

Section ScorerRun.

Variables (classifier : Classifier) (disk : Scorer.files) (df : DataFrame).
Hypothesis file_present : disk Scorer.INPUT_FILE = Some df.
Hypothesis lyrics_present : has_column df "lyrics" = true.

Let series : list value :=
  map (fun row => row_get (columns df) row "lyrics") (rows df).

Lemma scorer_main_run tr :
  exists dicts,
    Scorer.main (Ok classifier) disk tr
    = (Ok (Scorer.concat_columns df (Scorer.frame_of_records dicts)),
       (tr ++ classified series)%list)
    /\ Forall2 scores_of series dicts.
Proof.
  destruct (apply_run classifier series tr) as (dicts & Hrun & Hall).
  exists dicts. split; [|exact Hall].
  unfold Scorer.main, Scorer.load_data. rewrite file_present.
  unfold bind, ret, raise. cbn beta iota. rewrite lyrics_present. cbn [negb].
  fold series. now rewrite Hrun.
Qed.

End ScorerRun.

(** X14. In a run of the scorer's [main] past its start-up checks, the
    classifier is called exactly once for each row whose [lyrics] cell is
    a string with a visible character, in row order and on the text as
    stored, and never for a row whose cell is missing, not a string, or
    blank. *)
Theorem scorer_main_classifier_calls classifier disk df tr :
  disk Scorer.INPUT_FILE = Some df ->
  has_column df "lyrics" = true ->
  snd (Scorer.main (Ok classifier) disk tr)
  = (tr ++ classified (map (fun row => row_get (columns df) row "lyrics")
                           (rows df)))%list.
Proof.
  intros Hfile Hcol.
  destruct (scorer_main_run classifier disk df Hfile Hcol tr) as (dicts & Hrun & _).
  now rewrite Hrun.
Qed.

Lemma scorer_main_classifier_calls_witness :
  snd (Scorer.main (Ok failing_classifier) lyrics_disk [])
  = ([] ++ classified (map (fun row => row_get (columns lyrics_table) row "lyrics")
                           (rows lyrics_table)))%list.
Proof.
  apply (scorer_main_classifier_calls failing_classifier lyrics_disk
           lyrics_table []); reflexivity.
Defined.







(* ===================================================================== *)
(** ** Chart dates *)
(* ===================================================================== *)

Section DateLoop.

Variable strftime : Z -> string.

Lemma dates_loop_range n :
  forall fuel current end_,
    Z.to_nat (end_ - current + 1) = n ->
    n < fuel ->
    (end_ < Charts.MAX_ORDINAL)%Z ->
    Charts.dates_loop strftime fuel current end_
    = Some (map strftime (days current n), Charts.Exhausted).
Proof.
  induction n as [|n IH]; intros fuel current end_ Hn Hfuel Hmax;
    destruct fuel as [|fuel]; try lia; cbn [Charts.dates_loop days map].
  - destruct (Z.leb_spec current end_); [lia | reflexivity].
  - destruct (Z.leb_spec current end_); [|lia].
    destruct (Z.gtb_spec (current + 1) Charts.MAX_ORDINAL); [lia|].
    rewrite (IH fuel (current + 1)%Z end_); [reflexivity | lia | lia | lia].
Qed.

Lemma dates_loop_overflow n :
  forall fuel current,
    Z.to_nat (Charts.MAX_ORDINAL - current + 1) = S n ->
    n < fuel ->
    Charts.dates_loop strftime fuel current Charts.MAX_ORDINAL
    = Some (map strftime (days current (S n)),
            Charts.Failed Charts.DateOverflowError).
Proof.
  induction n as [|n IH]; intros fuel current Hn Hfuel;
    destruct fuel as [|fuel]; try lia; cbn [Charts.dates_loop].
  - destruct (Z.leb_spec current Charts.MAX_ORDINAL); [|lia].
    destruct (Z.gtb_spec (current + 1) Charts.MAX_ORDINAL); [reflexivity | lia].
  - destruct (Z.leb_spec current Charts.MAX_ORDINAL); [|lia].
    destruct (Z.gtb_spec (current + 1) Charts.MAX_ORDINAL); [lia|].
    rewrite (IH fuel (current + 1)%Z); [reflexivity | lia | lia].
Qed.

End DateLoop.

Lemma length_days first n : length (days first n) = n.
Proof. revert first; induction n; intros; cbn; auto. Qed.

Lemma nth_days first n i : i < n -> nth i (days first n) 0%Z = (first + Z.of_nat i)%Z.
Proof.
  revert first i; induction n as [|n IH]; intros first [|i] H; cbn [days nth];
    try lia.
  rewrite IH by lia. lia.
Qed.

(** X17. For two dates that parse, the later one before the last day a
    [datetime] can hold, [generate_dates] ends normally after yielding
    the text of every day from the start date to the end date, both
    included, in increasing order, one day apart: [end - start + 1] dates,
    and none when the start date is after the end date. *)
Theorem generate_dates_range strptime strftime fuel start_date end_date
    start end_ :
  strptime start_date = Some start ->
  strptime end_date = Some end_ ->
  (end_ < Charts.MAX_ORDINAL)%Z ->
  Z.to_nat (end_ - start + 1) < fuel ->
  Charts.generate_dates strptime strftime fuel start_date end_date
  = Some (map strftime (days start (Z.to_nat (end_ - start + 1))),
          Charts.Exhausted)
  /\ length (days start (Z.to_nat (end_ - start + 1)))
     = Z.to_nat (end_ - start + 1)
  /\ (forall i, i < Z.to_nat (end_ - start + 1) ->
        nth i (days start (Z.to_nat (end_ - start + 1))) 0%Z
        = (start + Z.of_nat i)%Z)
  /\ ((end_ < start)%Z -> days start (Z.to_nat (end_ - start + 1)) = []).
Proof.
  intros Hs He Hmax Hfuel. unfold Charts.generate_dates. rewrite Hs, He.
  split; [now apply dates_loop_range|].
  split; [apply length_days|].
  split; [intros i Hi; now apply nth_days|].
  intros Hlt. replace (Z.to_nat (end_ - start + 1)) with 0 by lia. reflexivity.
Qed.

Lemma generate_dates_range_witness :
  Charts.generate_dates sample_strptime sample_strftime 10
    "2025-01-01" "2025-01-03"
  = Some (map sample_strftime
            (days 739252%Z (Z.to_nat (739254 - 739252 + 1)%Z)),
          Charts.Exhausted)
  /\ length (days 739252%Z (Z.to_nat (739254 - 739252 + 1)%Z))
     = Z.to_nat (739254 - 739252 + 1)%Z
  /\ (forall i, i < Z.to_nat (739254 - 739252 + 1)%Z ->
        nth i (days 739252%Z (Z.to_nat (739254 - 739252 + 1)%Z)) 0%Z
        = (739252 + Z.of_nat i)%Z)
  /\ ((739254 < 739252)%Z ->
      days 739252%Z (Z.to_nat (739254 - 739252 + 1)%Z) = []).
Proof.
  apply (generate_dates_range sample_strptime sample_strftime 10
           "2025-01-01" "2025-01-03" 739252%Z 739254%Z);
    [reflexivity | reflexivity | reflexivity | cbn; lia].
Defined.

(** X18. [generate_dates] can fail in two ways.  When either date does
    not parse it fails with [ValueError] before yielding anything.  When
    the end date is the last day a [datetime] can hold and the start date
    is not after it, it yields every date up to that day and then fails
    with [OverflowError] on stepping past it, instead of ending. *)
Theorem generate_dates_failures strptime strftime fuel start_date end_date :
  (strptime start_date = None \/ strptime end_date = None ->
   Charts.generate_dates strptime strftime fuel start_date end_date
   = Some ([], Charts.Failed Charts.DateValueError))
  /\ (forall start,
         strptime start_date = Some start ->
         strptime end_date = Some Charts.MAX_ORDINAL ->
         (start <= Charts.MAX_ORDINAL)%Z ->
         Z.to_nat (Charts.MAX_ORDINAL - start + 1) <= fuel ->
         Charts.generate_dates strptime strftime fuel start_date end_date
         = Some (map strftime
                   (days start (Z.to_nat (Charts.MAX_ORDINAL - start + 1))),
                 Charts.Failed Charts.DateOverflowError)).
Proof.
  split.
  - unfold Charts.generate_dates. intros [H|H]; rewrite H; [reflexivity|].
    now destruct (strptime start_date).
  - intros start Hs He Hle Hfuel. unfold Charts.generate_dates. rewrite Hs, He.
    destruct (Z.to_nat (Charts.MAX_ORDINAL - start + 1)) as [|n] eqn:E; [lia|].
    apply dates_loop_overflow; [exact E | lia].
Qed.

Lemma generate_dates_failures_witness :
  Charts.generate_dates sample_strptime sample_strftime 5
    "2025-01-01" "soon"
  = Some ([], Charts.Failed Charts.DateValueError)
  /\ Charts.generate_dates sample_strptime sample_strftime 5
       "9999-12-31" "9999-12-31"
     = Some (map sample_strftime
               (days 3652059%Z
                  (Z.to_nat (Charts.MAX_ORDINAL - 3652059 + 1)%Z)),
             Charts.Failed Charts.DateOverflowError).
Proof.
  split.
  - apply (proj1 (generate_dates_failures sample_strptime sample_strftime 5
                    "2025-01-01" "soon")).
    right; reflexivity.
  - apply (proj2 (generate_dates_failures sample_strptime sample_strftime 5
                    "9999-12-31" "9999-12-31") 3652059%Z);
      [reflexivity | reflexivity | discriminate | cbn; lia].
Defined.

(* ===================================================================== *)
(** ** No header is left in the cleaned lyrics *)
(* ===================================================================== *)

Section Headers.
Import Re PyStr.

Lemma closes_cons c s :
  closes (String c s) =
  if Ascii.eqb c "]" then true else if dot c then closes s else false.
Proof.
  unfold closes. cbn [lits match_at].
  rewrite (Ascii.eqb_sym "]" c).
  destruct (Ascii.eqb c "]"); [reflexivity|].
  destruct (dot c); [|reflexivity].
  match goal with |- context [option_map S ?x] => now destruct x end.
Qed.

Lemma header_at_cons c s :
  header_at (String c s) = Ascii.eqb c "[" && closes s.
Proof.
  unfold header_at, closes, section_header.
  change (lits "[" ++ LazyStar dot :: lits "]")%list
    with (Lit "[" :: LazyStar dot :: lits "]").
  cbn [match_at]. rewrite (Ascii.eqb_sym "[" c).
  destruct (Ascii.eqb c "["); [|reflexivity]. cbn [andb].
  match goal with |- context [option_map S ?x] => now destruct x end.
Qed.

(** One step of the substitution, by whether the pattern matches. *)
Lemma sub_header_step c s :
  (header_at (String c s) = true /\
   exists m, sub_from section_header "" 0 (String c s)
             = sub_from section_header "" m s)
  \/ (header_at (String c s) = false /\
      sub_from section_header "" 0 (String c s)
      = String c (sub_from section_header "" 0 s)).
Proof.
  unfold header_at. cbn [sub_from].
  destruct (match_at section_header (String c s)) as [[|m]|];
    [right | left | right]; split; try reflexivity.
  exists m. reflexivity.
Qed.

Lemma closes_sub s :
  forall n, closes (sub_from section_header "" n s) = true ->
            closes (drop n s) = true.
Proof.
  induction s as [|c s IH]; intros n H.
  - destruct n; cbn in H; discriminate.
  - destruct n as [|k]; [|now apply IH].
    cbn [drop].
    destruct (sub_header_step c s) as [[Hat _]|[Hat Hstep]].
    + rewrite header_at_cons in Hat. apply andb_prop in Hat as [Hc Hs].
      apply Ascii.eqb_eq in Hc. subst c. rewrite closes_cons. exact Hs.
    + rewrite Hstep in H. rewrite closes_cons in *.
      destruct (Ascii.eqb c "]"); [reflexivity|].
      destruct (dot c); [|discriminate].
      apply (IH 0 H).
Qed.

(** The substitution leaves no match behind. *)
Lemma header_free_sub s :
  forall n, header_free (sub_from section_header "" n s) = true.
Proof.
  induction s as [|c s IH]; intros n; [now destruct n|].
  destruct n as [|k]; [|apply IH].
  destruct (sub_header_step c s) as [[_ [m Hstep]]|[Hat Hstep]];
    rewrite Hstep; [apply IH|].
  cbn [header_free]. rewrite (IH 0), andb_true_r.
  rewrite header_at_cons in *.
  destruct (Ascii.eqb c "["); [|reflexivity]. cbn [andb] in *.
  destruct (closes (sub_from section_header "" 0 s)) eqn:E; [|reflexivity].
  apply (closes_sub s 0) in E. cbn [drop] in E. congruence.
Qed.

Lemma header_free_fixed s :
  header_free s = true -> sub_from section_header "" 0 s = s.
Proof.
  induction s as [|c s IH]; [reflexivity|].
  cbn [header_free]. intros H. apply andb_prop in H as [Hat Hs].
  apply negb_true_iff in Hat.
  destruct (sub_header_step c s) as [[Hat' _]|[_ Hstep]]; [congruence|].
  now rewrite Hstep, IH.
Qed.

Lemma header_free_lstrip s : header_free s = true -> header_free (lstrip s) = true.
Proof.
  induction s as [|c s IH]; [reflexivity|]. intros H. cbn [lstrip].
  destruct (isspace c); [|exact H].
  cbn [header_free] in H. apply andb_prop in H as [_ H]. now apply IH.
Qed.

Lemma closes_rstrip s : closes (rstrip s) = true -> closes s = true.
Proof.
  induction s as [|c s IH]; [auto|]. cbn [rstrip].
  destruct (rstrip s) as [|d r] eqn:R.
  - destruct (isspace c); [discriminate|].
    rewrite !closes_cons. destruct (Ascii.eqb c "]"); [reflexivity|].
    destruct (dot c); discriminate.
  - rewrite (closes_cons c (String d r)), (closes_cons c s).
    destruct (Ascii.eqb c "]"); [reflexivity|].
    destruct (dot c); [exact IH | discriminate].
Qed.

Lemma header_free_rstrip s : header_free s = true -> header_free (rstrip s) = true.
Proof.
  induction s as [|c s IH]; [reflexivity|].
  cbn [header_free]. intros H. apply andb_prop in H as [Hat Hs].
  apply negb_true_iff in Hat. rewrite header_at_cons in Hat.
  specialize (IH Hs).
  assert (Hgoal : header_free (String c (rstrip s)) = true).
  { cbn [header_free]. rewrite IH, andb_true_r, header_at_cons.
    destruct (Ascii.eqb c "["); [|reflexivity]. cbn [andb] in *.
    destruct (closes (rstrip s)) eqn:E; [|reflexivity].
    apply closes_rstrip in E. congruence. }
  cbn [rstrip]. destruct (rstrip s) as [|d r] eqn:R; [|exact Hgoal].
  destruct (isspace c); [reflexivity | exact Hgoal].
Qed.

End Headers.

(** X19. In the text returned by [clean_lyrics] the section-header
    pattern matches nowhere: no opening bracket is followed by a closing
    bracket on its line, and removing the section headers once more
    leaves the text unchanged. *)
Theorem clean_lyrics_header_free text track_name :
  header_free (clean_lyrics text track_name) = true
  /\ remove_section_headers (clean_lyrics text track_name)
     = clean_lyrics text track_name.
Proof.
  assert (H : header_free (clean_lyrics text track_name) = true).
  { rewrite clean_lyrics_unfold. unfold PyStr.strip.
    apply header_free_rstrip, header_free_lstrip.
    unfold remove_section_headers, Re.sub. apply header_free_sub. }
  split; [exact H|].
  unfold remove_section_headers, Re.sub. now apply header_free_fixed.
Qed.

(* ===================================================================== *)
(** ** Lyrics that need no cleaning *)
(* ===================================================================== *)

Section Footer.
Import Re PyStr.

Lemma ends_with_cons sub c s :
  ends_with sub s = true -> ends_with sub (String c s) = true.
Proof. intros H. cbn [ends_with]. rewrite H. apply orb_true_r. Qed.

Lemma at_end_cases s : at_end s = true -> s = "" \/ s = String newline "".
Proof.
  destruct s as [|c [|d s]]; cbn; auto; [|discriminate].
  intros H. apply Ascii.eqb_eq in H. subst. auto.
Qed.

(** A footer match reaches the end of the text, or the newline that ends
    it. *)
Lemma match_footer_suffix u :
  forall n, match_at embed_footer u = Some n ->
            ends_with "Embed" u = true
            \/ ends_with ("Embed" ++ String newline "") u = true.
Proof.
  induction u as [|c u IH]; intros n H; [discriminate|].
  rewrite match_footer_cons in H.
  destruct (digit c).
  - destruct (match_at embed_footer u) as [m|]; [|discriminate].
    destruct (IH m eq_refl) as [E|E]; [left | right]; now apply ends_with_cons.
  - rewrite match_at_lits in H.
    destruct (prefix "Embed" (String c u)) eqn:P; [|discriminate].
    cbn [match_at] in H.
    destruct (at_end (drop (String.length "Embed") (String c u))) eqn:A;
      [|discriminate].
    apply PyStrFacts.prefix_split in P.
    apply at_end_cases in A as [A|A]; rewrite A in P; rewrite P;
      [left | right]; reflexivity.
Qed.

Lemma ends_with_false_cons sub c s :
  ends_with sub (String c s) = false -> ends_with sub s = false.
Proof. cbn [ends_with]. intros H. now apply orb_false_elim in H as [_ H]. Qed.

Lemma remove_embed_footer_absent s :
  ends_with "Embed" s = false ->
  ends_with ("Embed" ++ String newline "") s = false ->
  remove_embed_footer s = s.
Proof.
  unfold remove_embed_footer, Re.sub.
  induction s as [|c s IH]; intros H1 H2; [reflexivity|].
  cbn [sub_from].
  destruct (match_at embed_footer (String c s)) as [n|] eqn:M.
  - apply match_footer_suffix in M as [M|M]; congruence.
  - f_equal. apply IH; eapply ends_with_false_cons; eauto.
Qed.

End Footer.

(** X20. Lyrics that hold no banner for the track, no opening bracket,
    and do not end in [Embed] (or in [Embed] and a newline) are only
    trimmed by [clean_lyrics]: nothing inside the text is changed. *)
Theorem clean_lyrics_plain text track_name :
  PyStr.contains (track_name ++ " Lyrics") text = false ->
  all_chars not_open_bracket text = true ->
  ends_with "Embed" text = false ->
  ends_with ("Embed" ++ String Re.newline "") text = false ->
  clean_lyrics text track_name = PyStr.strip text.
Proof.
  intros Hb Ho He1 He2. rewrite clean_lyrics_unfold. f_equal.
  assert (B : remove_banner text track_name = text).
  { unfold remove_banner. apply PyStrFacts.contains_false in Hb.
    now rewrite Hb. }
  rewrite B, (remove_embed_footer_absent text He1 He2).
  rewrite <- (PyStrFacts.app_empty_r text) at 1.
  rewrite (remove_headers_plain text "" Ho).
  cbn. apply PyStrFacts.app_empty_r.
Qed.

Lemma clean_lyrics_plain_witness :
  clean_lyrics " La la (la) - Embedded 7 " "Hello"
  = PyStr.strip " La la (la) - Embedded 7 ".
Proof.
  apply (clean_lyrics_plain " La la (la) - Embedded 7 " "Hello");
    reflexivity.
Defined.
